(** * The document-to-chart pipeline of the multi-agent notebook

    A shallow embedding of the orchestration cells of the notebook
    [01-text-to-image.ipynb]: the document fetcher ([download_pdf],
    [pdf_to_base64_pngs], [process_pdf]), the planner
    ([generate_prompt_for_lite]), the worker and aggregator stage
    ([extract_info] and the loop that builds [extracted_info]) and the
    parser of the synthesis answer ([extract_code]).

    Python strings are [string]s whose characters are the code points
    below 256; the remote services, the file system and the rasterizer
    are fields of a [World] record; exceptions are values of [Exn] carried
    by [Outcome]; what a cell prints, requests or executes is recorded as a
    list of [Event]s. *)

From Stdlib Require Import ZArith Lia Ascii String QArith.
From stdpp Require Import base list gmap strings pretty.

Local Open Scope Z_scope.

(** ** Python [str] operations *)

Module PyStr.

Definition len (s : string) : Z := Z.of_nat (String.length s).

(** [s.startswith(p)] *)
Fixpoint startswith (p s : string) : bool :=
  match p, s with
  | EmptyString, _ => true
  | String a p', String b s' => if Ascii.eqb a b then startswith p' s' else false
  | String _ _, EmptyString => false
  end.

(** [s.endswith(p)] *)
Fixpoint endswith (p s : string) : bool :=
  String.eqb s p ||
  match s with
  | EmptyString => false
  | String _ s' => endswith p s'
  end.

(** [s.find(p)]: the lowest index at which [p] occurs in [s], or [-1].
    [find_from] carries the index of the first character of [s]. *)
Fixpoint find_from (p s : string) (i : Z) : Z :=
  if startswith p s then i
  else match s with
       | EmptyString => -1
       | String _ s' => find_from p s' (i + 1)
       end.

Definition find (s p : string) : Z := find_from p s 0.

(** [s.rfind(p)]: the highest index at which [p] occurs in [s], or [-1]. *)
Fixpoint rfind_from (p s : string) (i : Z) : Z :=
  match s with
  | EmptyString => if startswith p s then i else -1
  | String _ s' =>
      let k := rfind_from p s' (i + 1) in
      if k =? -1 then (if startswith p s then i else -1) else k
  end.

Definition rfind (s p : string) : Z := rfind_from p s 0.

(** [p in s] *)
Fixpoint contains (p s : string) : bool :=
  startswith p s ||
  match s with
  | EmptyString => false
  | String _ s' => contains p s'
  end.

(** [c in s] for a character [c] *)
Fixpoint occurs (c : ascii) (s : string) : bool :=
  match s with
  | EmptyString => false
  | String x s' => Ascii.eqb x c || occurs c s'
  end.

(** Slices [s[lo:hi]] with step 1.  A bound is an integer or absent
    ([None]); a negative bound counts from the end, and every bound is
    clipped to the string. *)
Definition clip (n i : Z) : Z :=
  if i <? 0 then Z.max 0 (i + n) else Z.min i n.

Fixpoint drop (n : nat) (s : string) : string :=
  match n, s with
  | O, _ => s
  | S _, EmptyString => EmptyString
  | S n', String _ s' => drop n' s'
  end.

Fixpoint take (n : nat) (s : string) : string :=
  match n, s with
  | O, _ => EmptyString
  | S _, EmptyString => EmptyString
  | S n', String c s' => String c (take n' s')
  end.

Definition slice (s : string) (lo hi : option Z) : string :=
  let n := len s in
  let a := match lo with Some i => clip n i | None => 0 end in
  let b := match hi with Some i => clip n i | None => n end in
  take (Z.to_nat (b - a)) (drop (Z.to_nat a) s).

(** [c.isspace()] on the code points below 256: TAB, LF, VT, FF, CR,
    FS, GS, RS, US, SPACE, NEL (0x85) and NBSP (0xA0). *)
Definition ord (c : ascii) : Z := Z.of_N (N_of_ascii c).

Definition isspace (c : ascii) : bool :=
  let n := ord c in
  ((9 <=? n) && (n <=? 13)) || ((28 <=? n) && (n <=? 32))
  || (n =? 133) || (n =? 160).

Fixpoint lstrip (s : string) : string :=
  match s with
  | EmptyString => EmptyString
  | String c s' => if isspace c then lstrip s' else s
  end.

Fixpoint rstrip (s : string) : string :=
  match s with
  | EmptyString => EmptyString
  | String c s' =>
      match rstrip s' with
      | EmptyString => if isspace c then EmptyString else String c EmptyString
      | r => String c r
      end
  end.

(** [s.strip()] *)
Definition strip (s : string) : string := rstrip (lstrip s).

(** [s.split(sep)] for a separator of one character, as everywhere in the
    notebook ([split("/")], [split("-")]).  The result is never empty. *)
Fixpoint split (sep : ascii) (s : string) : list string :=
  match s with
  | EmptyString => [EmptyString]
  | String c s' =>
      if Ascii.eqb c sep then EmptyString :: split sep s'
      else match split sep s' with
           | w :: ws => String c w :: ws
           | [] => [String c EmptyString]
           end
  end.

End PyStr.

(** ** Python values, exceptions and effects *)

(** The values a caller can pass where the notebook expects a question. *)
#[warnings="-register-all"]
Inductive PyVal :=
| PyNone
| PyBool (b : bool)
| PyInt (n : Z)
| PyStr (s : string)
| PyBytes (b : string)
| PyList (l : list PyVal).

(** Truth value of an object, as tested by [not question] and [if code:]. *)
Definition truthy (v : PyVal) : bool :=
  match v with
  | PyNone => false
  | PyBool b => b
  | PyInt n => negb (n =? 0)
  | PyStr s => negb (String.eqb s EmptyString)
  | PyBytes b => negb (String.eqb b EmptyString)
  | PyList l => match l with [] => false | _ => true end
  end.

(** [isinstance(v, str)] *)
Definition isinstance_str (v : PyVal) : bool :=
  match v with PyStr _ => true | _ => false end.

(** [{question}] inside an f-string, for the values that reach it: a [str]
    formats as itself. *)
Definition format_str (v : PyVal) : string :=
  match v with PyStr s => s | _ => EmptyString end.

(** Exceptions, with the message [str(e)] shows.  [RequestException] stands
    for [requests.RequestException] and its subclasses; [OtherError] for an
    exception of any other class, named by its class: a subclass of
    [Exception] wherever a collaborator of the [World] raises it. *)
Inductive Exn :=
| ValueError (msg : string)
| IndexError (msg : string)
| RequestException (msg : string)
| OtherError (cls msg : string).

Definition exn_str (e : Exn) : string :=
  match e with
  | ValueError m | IndexError m | RequestException m | OtherError _ m => m
  end.

Definition is_RequestException (e : Exn) : bool :=
  match e with RequestException _ => true | _ => false end.

Inductive Outcome (A : Type) :=
| Ok (a : A)
| Raise (e : Exn).
Arguments Ok {A} a.
Arguments Raise {A} e.

(** The body of a model request, as serialised by [json.dumps]. *)
Inductive ContentPart :=
| ImagePart (bytes format : string)
| TextPart (text : string).

Record Message := { role : string; content : list ContentPart }.

Record InferenceConfig :=
  { max_new_tokens : Z; top_p : Q; top_k : Z; temperature : Q }.

Record RequestBody :=
  { messages : list Message; inferenceConfig : option InferenceConfig }.

(** What a run does to the outside, in the order it does it. *)
Inductive Event :=
| EvPrint (s : string)
| EvGet (url : string)
| EvWrite (file_name : string)
| EvOpenPdf (pdf_path : string)
| EvInvoke (modelId : string) (body : RequestBody)
| EvExec (code : string).

(** How [exec(code)] ends: normally, with an exception of a subclass of
    [Exception], or with an exception of a class outside [Exception]
    ([SystemExit], [KeyboardInterrupt], ...), which no [except Exception]
    catches. *)
Inductive ExecResult :=
| Finished
| Raised (e : Exn)
| Escaped (cls msg : string).

(** The collaborators of the notebook.
    - [requests_get url]: [requests.get(url, stream=True)] followed by
      [raise_for_status()]: the body of the answer, or the exception;
    - [write_file file_name body]: [open(file_name, "wb")] and the writes;
    - [fitz_pages pdf_path]: [fitz.open(pdf_path)] and, for each page in
      document order, the base64 PNG the loop body makes of it (pixmap,
      thumbnail, PNG encoding), or the exception it raises;
    - [invoke_model modelId body]: [client.invoke_model] and the decoding of
      the answer down to [output.message.content[0].text];
    - [py_exec code]: [exec(code)]: what the executed code does to the
      outside, and how it ends.
    The first four raise subclasses of [Exception] only. *)
Record World := {
  requests_get : string -> Outcome string;
  write_file : string -> string -> Outcome unit;
  fitz_pages : string -> Outcome (list (Outcome string));
  invoke_model : string -> RequestBody -> Outcome string;
  py_exec : string -> list Event * ExecResult
}.

(** A computation: the events it emits, then its result or exception. *)
Definition M (A : Type) : Type := list Event * Outcome A.

Definition ret {A} (a : A) : M A := ([], Ok a).
Definition raise {A} (e : Exn) : M A := ([], Raise e).
Definition emit (ev : Event) : M unit := ([ev], Ok tt).
Definition call {A} (ev : Event) (r : Outcome A) : M A := ([ev], r).
Definition lift {A} (r : Outcome A) : M A := ([], r).

Definition bind {A B} (m : M A) (k : A -> M B) : M B :=
  match m with
  | (l, Ok a) => let (l', r) := k a in (l ++ l', r)
  | (l, Raise e) => (l, Raise e)
  end.

Notation "'do' x <- m ; k" := (bind m (fun x => k))
  (at level 10, x name, m at level 100, k at level 200).
Notation "m ;; k" := (bind m (fun _ => k))
  (at level 100, k at level 200, right associativity).

(** [try: m except C as e: h e], where [catches] tells the exceptions of
    class [C]. *)
Definition try_except {A} (m : M A) (catches : Exn -> bool) (h : Exn -> M A) : M A :=
  match m with
  | (l, Ok a) => (l, Ok a)
  | (l, Raise e) =>
      if catches e then let (l', r) := h e in (l ++ l', r) else (l, Raise e)
  end.

Definition print (s : string) : M unit := emit (EvPrint s).

(** [l[i]] on a list: negative indices count from the end. *)
Definition getitem {A} (l : list A) (i : Z) : Outcome A :=
  let j := if i <? 0 then i + Z.of_nat (length l) else i in
  if j <? 0 then Raise (IndexError "list index out of range")
  else match l !! Z.to_nat j with
       | Some a => Ok a
       | None => Raise (IndexError "list index out of range")
       end.

(** [os.path.join(a, b)] and [os.path.basename(p)] of [posixpath]. *)
Definition os_path_join (a b : string) : string :=
  if PyStr.startswith "/" b then b
  else if String.eqb a EmptyString || PyStr.endswith "/" a then a +:+ b
  else a +:+ "/" +:+ b.

Definition os_path_basename (p : string) : string :=
  PyStr.slice p (Some (PyStr.rfind p "/" + 1)) None.

Definition nl : string := String "010"%char EmptyString.
Definition dquote : string := String "034"%char EmptyString.
Definition esc : string := String "027"%char EmptyString.

(** ** The thread pool

    [list(executor.map(f, xs))] inside [with ThreadPoolExecutor() as
    executor]: one task [f x] per element is submitted, in input order,
    each with a future of its own.  The tasks share no state, so a run is
    described by the order [sched] in which the tasks run to completion:
    each writes its result or its exception into its future.  The results are
    then read future by future in submission order; the first exception met
    is raised again.  Reading a future whose task never completes does not
    return: the cell has no result ([None]). *)

Definition run_tasks {B} (tasks : list (M B)) (sched : list nat)
  : list Event * gmap nat (Outcome B) :=
  foldl (fun st i =>
           match tasks !! i with
           | Some t => (st.1 ++ t.1, <[i := t.2]> st.2)
           | None => st
           end) ([], ∅) sched.

Fixpoint results {B} (futures : gmap nat (Outcome B)) (i n : nat)
  : option (Outcome (list B)) :=
  match n with
  | O => Some (Ok [])
  | S n' =>
      match futures !! i with
      | None => None
      | Some (Raise e) => Some (Raise e)
      | Some (Ok b) =>
          match results futures (S i) n' with
          | None => None
          | Some (Raise e) => Some (Raise e)
          | Some (Ok bs) => Some (Ok (b :: bs))
          end
      end
  end.

Definition executor_map {A B} (f : A -> M B) (xs : list A) (sched : list nat)
  : option (M (list B)) :=
  let (log, futures) := run_tasks (map f xs) sched in
  match results futures 0 (length xs) with
  | Some r => Some (log, r)
  | None => None
  end.

(** A cell goes on with [k] once the pool has delivered. *)
Definition then_ {A B} (c : option (M A)) (k : A -> M B) : option (M B) :=
  match c with
  | Some m => Some (bind m k)
  | None => None
  end.

(** ** The notebook *)

Definition pdf_urls : list string :=
  [ "https://s2.q4cdn.com/299287126/files/doc_financials/2023/q1/Q1-2023-Amazon-Earnings-Release.pdf";
    "https://s2.q4cdn.com/299287126/files/doc_financials/2023/q2/Q2-2023-Amazon-Earnings-Release.pdf";
    "https://s2.q4cdn.com/299287126/files/doc_financials/2023/q3/AMZN-Q3-2023-Earnings-Release.pdf";
    "https://s2.q4cdn.com/299287126/files/doc_financials/2023/q4/AMZN-Q4-2023-Earnings-Release.pdf" ].

Definition QUESTION : string :=
  "How did Amazon's net sales change quarter to quarter in the 2023 financial year and what contributed to the changes?".

Definition folder : string := "../downloads/pdfs".

Definition nova_pro : string := "us.amazon.nova-pro-v1:0".
Definition nova_lite : string := "us.amazon.nova-lite-v1:0".

Fixpoint spaces (n : nat) : string :=
  match n with
  | O => EmptyString
  | S n' => String " "%char (spaces n')
  end.

Fixpoint str_mul (s : string) (n : nat) : string :=
  match n with
  | O => EmptyString
  | S n' => s +:+ str_mul s n'
  end.

Definition response_header : string :=
  nl +:+ esc +:+ "[1m[Formatted Response Content Text]" +:+ esc +:+ "[0m".

(** The request [extract_info] builds: one image part per page, in page
    order, then the prompt. *)
Definition extract_info_request (base64_encoded_pngs : list string)
    (lite_prompt : string) : RequestBody :=
  {| messages :=
       [ {| role := "user";
            content :=
              map (fun base64_encoded_png => ImagePart base64_encoded_png "png")
                  base64_encoded_pngs
              ++ [TextPart lite_prompt] |} ];
     inferenceConfig := None |}.

(** The request of the planner. *)
Definition lite_prompt_request (question : string) : RequestBody :=
  {| messages :=
       [ {| role := "user";
            content :=
              [TextPart
                 ("Based on the following question," +:+ nl +:+ spaces 28
                  +:+ "please generate a specific prompt for an LLM agent to extract relevant information from an earning's report PDF."
                  +:+ nl +:+ spaces 28
                  +:+ "Each sub-agent only has access to a single quarter's earnings report."
                  +:+ nl +:+ spaces 28
                  +:+ "Output only the prompt and nothing else."
                  +:+ nl +:+ spaces 28 +:+ nl +:+ nl
                  +:+ "Question: " +:+ question)] |} ];
     inferenceConfig :=
       Some {| max_new_tokens := 300; top_p := (9 # 10)%Q;
               top_k := 20; temperature := (7 # 10)%Q |} |}.

(** The request of the synthesis cell. *)
Definition synthesis_text (question extracted_info : string) : string :=
  "Based on the following extracted information from Amazon's earnings releases, "
  +:+ nl +:+ spaces 13
  +:+ "please provide a response to the question: " +:+ question
  +:+ nl +:+ nl +:+ nl +:+ spaces 13
  +:+ "Also, please generate Python code using the matplotlib library to accompany your response. "
  +:+ nl +:+ spaces 13
  +:+ "Enclose the code within <python_code> tags." +:+ nl +:+ nl
  +:+ "Extracted Information:" +:+ nl +:+ extracted_info.

Definition synthesis_request (question extracted_info : string) : RequestBody :=
  {| messages :=
       [ {| role := "user";
            content := [TextPart (synthesis_text question extracted_info)] |} ];
     inferenceConfig := None |}.

(** [extract_code(response)] *)
Definition extract_code (response : string) : option string * string :=
  let start := PyStr.find response "<python>" in
  let end_ := PyStr.find response "</python>" in
  if negb (start =? -1) && negb (end_ =? -1) then
    (Some (PyStr.strip (PyStr.slice response (Some (start + 6)) (Some end_))),
     PyStr.strip (PyStr.slice response None (Some start)))
  else (None, PyStr.strip response).

(** The loop of the aggregation cell; [extracted_info] starts empty. *)
Fixpoint extracted_info_loop (extracted_info_list : list (string * string))
    (extracted_info : string) : Outcome string :=
  match extracted_info_list with
  | [] => Ok extracted_info
  | (info, pdf_path) :: rest =>
      match getitem (PyStr.split "-" (os_path_basename pdf_path)) 1 with
      | Ok quarter =>
          extracted_info_loop rest
            (extracted_info +:+ "<info quarter=" +:+ dquote +:+ quarter
             +:+ dquote +:+ ">" +:+ info +:+ "</info>" +:+ nl)
      | Raise e => Raise e
      end
  end.

(** The loop of [pdf_to_base64_pngs]: pages are appended in document
    order. *)
Fixpoint encode_pages (pages : list (Outcome string))
    (base64_encoded_pngs : list string) : Outcome (list string) :=
  match pages with
  | [] => Ok base64_encoded_pngs
  | Ok base64_encoded :: rest =>
      encode_pages rest (base64_encoded_pngs ++ [base64_encoded])
  | Raise e :: _ => Raise e
  end.

(** The aggregation cell after the pool: the loop, then [print]. *)
Definition aggregate (extracted_info_list : list (string * string)) : M string :=
  do extracted_info <- lift (extracted_info_loop extracted_info_list EmptyString);
  print extracted_info;;
  ret extracted_info.

Section Notebook.

Variable w : World.

(** [download_pdf(url, folder)] *)
Definition download_pdf (url folder : string) : M (option string) :=
  try_except
    (do response <- call (EvGet url) (requests_get w url);
     do name <- lift (getitem (PyStr.split "/" url) (-1));
     let file_name := os_path_join folder name in
     call (EvWrite file_name) (write_file w file_name response);;
     ret (Some file_name))
    is_RequestException
    (fun e =>
       print ("Failed to download PDF from " +:+ url +:+ ": " +:+ exn_str e);;
       ret None).

(** [pdf_to_base64_pngs(pdf_path)] *)
Definition pdf_to_base64_pngs (pdf_path : string) : M (list string) :=
  do doc <- call (EvOpenPdf pdf_path) (fitz_pages w pdf_path);
  lift (encode_pages doc []).

(** [process_pdf(url, folder)] *)
Definition process_pdf (url folder : string)
  : M (option (string * list string)) :=
  do pdf_path <- download_pdf url folder;
  match pdf_path with
  | Some p =>
      if truthy (PyStr p) then
        do pngs <- pdf_to_base64_pngs p;
        ret (Some (p, pngs))
      else ret None
  | None => ret None
  end.

(** The fetch cell: [pdf_results] after the filter. *)
Definition pdf_results (urls : list string) (sched : list nat)
  : option (M (list (string * list string))) :=
  then_ (executor_map (fun url => process_pdf url folder) urls sched)
        (fun pdf_results => ret (omap id pdf_results)).

(** [generate_prompt_for_lite(question)] *)
Definition generate_prompt_for_lite (question : PyVal) : M (option string) :=
  if negb (truthy question) || negb (isinstance_str question) then
    raise (ValueError "Question must be a non-empty string")
  else
    try_except
      (let request_body := lite_prompt_request (format_str question) in
       do content_text <-
         call (EvInvoke nova_pro request_body)
              (invoke_model w nova_pro request_body);
       print response_header;;
       print content_text;;
       print (str_mul "-" 60);;
       ret (Some content_text))
      (fun _ => true)
      (fun e =>
         print ("Error generating prompt: " +:+ exn_str e);;
         ret None).

(** [extract_info(pdf_path, base64_encoded_pngs, lite_prompt)] *)
Definition extract_info (pdf_path : string) (base64_encoded_pngs : list string)
    (lite_prompt : string) : M (string * string) :=
  let request_body := extract_info_request base64_encoded_pngs lite_prompt in
  do text <-
    call (EvInvoke nova_lite request_body)
         (invoke_model w nova_lite request_body);
  ret (text, pdf_path).

(** The worker cell: fan-out over [pdf_results], then the aggregation
    ([aggregate]: the loop and the [print] that follow the pool). *)
Definition extracted_info (pdf_results : list (string * list string))
    (lite_prompt : string) (sched : list nat) : option (M string) :=
  then_ (executor_map (fun x => extract_info x.1 x.2 lite_prompt)
                      pdf_results sched)
        aggregate.

(** The synthesis cell: [content_text]. *)
Definition content_text (extracted_info : string) : M string :=
  let request_body := synthesis_request QUESTION extracted_info in
  do content_text <-
    call (EvInvoke nova_pro request_body)
         (invoke_model w nova_pro request_body);
  print response_header;;
  print content_text;;
  ret content_text.

(** [try: exec(code) except Exception as e: print(...)]: the events of
    the executed code follow the call; an exception of a subclass of
    [Exception] is reported, one of another class leaves the [try]. *)
Definition exec_reporting (code : string) : M unit :=
  let (evs, r) := py_exec w code in
  match r with
  | Finished => (EvExec code :: evs, Ok tt)
  | Raised e =>
      (EvExec code :: evs ++ [EvPrint ("Error executing code: " +:+ exn_str e)],
       Ok tt)
  | Escaped cls msg => (EvExec code :: evs, Raise (OtherError cls msg))
  end.

(** The last cell, up to the execution of the extracted code. *)
Definition run_extracted_code (content_text : string) : M unit :=
  let (code, text) := extract_code content_text in
  print text;;
  match code with
  | Some c => if truthy (PyStr c) then exec_reporting c else ret tt
  | None => ret tt
  end.

End Notebook.

(** ** Vocabulary of the statements *)

(** The results of a list of tasks read in input order: all the values,
    or the first exception. *)
Fixpoint in_order {B} (l : list (Outcome B)) : Outcome (list B) :=
  match l with
  | [] => Ok []
  | Raise e :: _ => Raise e
  | Ok b :: rest =>
      match in_order rest with
      | Ok bs => Ok (b :: bs)
      | Raise e => Raise e
      end
  end.

(** The answer of the worker for one document, with the path it is
    returned with. *)
Definition worker_result (w : World) (lite_prompt : string)
    (d : string * list string) : Outcome (string * string) :=
  match invoke_model w nova_lite (extract_info_request d.2 lite_prompt) with
  | Ok text => Ok (text, d.1)
  | Raise e => Raise e
  end.

(** The result of a cell. *)
Definition outcome {A} (c : option (M A)) : option (Outcome A) := snd <$> c.

(** The model requests among the events of a run. *)
Definition invocations (log : list Event) : list (string * RequestBody) :=
  omap (fun ev => match ev with
                  | EvInvoke modelId body => Some (modelId, body)
                  | _ => None
                  end) log.

(** The code fragments executed during a run. *)
Definition executed (log : list Event) : list string :=
  omap (fun ev => match ev with EvExec code => Some code | _ => None end) log.

(** What was printed during a run. *)
Definition printed (log : list Event) : list string :=
  omap (fun ev => match ev with EvPrint s => Some s | _ => None end) log.

(** The page images and the texts a request carries, in order. *)
Definition images_of (body : RequestBody) : list string :=
  m ← messages body;
  omap (fun part => match part with
                    | ImagePart bytes _ => Some bytes
                    | TextPart _ => None
                    end) (content m).

Definition texts_of (body : RequestBody) : list string :=
  m ← messages body;
  omap (fun part => match part with
                    | TextPart text => Some text
                    | ImagePart _ _ => None
                    end) (content m).

(** One labeled block of the combined context. *)
Definition info_block (quarter info : string) : string :=
  "<info quarter=" +:+ dquote +:+ quarter +:+ dquote +:+ ">" +:+ info
  +:+ "</info>" +:+ nl.

Fixpoint concat_str (l : list string) : string :=
  match l with
  | [] => EmptyString
  | s :: rest => s +:+ concat_str rest
  end.

(** ** A sample world

    Downloads succeed except for [missing.pdf]; documents have two pages
    except [corrupt.pdf], which cannot be opened, and [empty.pdf], which has
    none; the model summarises the first page it is shown and refuses a
    request without the images it needs. *)

Definition sample_world : World :=
  {| requests_get url :=
       if PyStr.endswith "/missing.pdf" url
       then Raise (RequestException "404 Client Error: Not Found for url")
       else Ok "%PDF-1.7";
     write_file _ _ := Ok tt;
     fitz_pages pdf_path :=
       if PyStr.endswith "/corrupt.pdf" pdf_path
       then Raise (OtherError "FileDataError" "Failed to open file")
       else if PyStr.endswith "/empty.pdf" pdf_path then Ok []
       else Ok [Ok ("page 1 of " +:+ pdf_path); Ok ("page 2 of " +:+ pdf_path)];
     invoke_model modelId body :=
       match images_of body with
       | png :: _ => Ok ("Summary of " +:+ png)
       | [] =>
           if String.eqb modelId nova_lite
           then Raise (OtherError "ValidationException" "No image in the request")
           else Ok "Extract the net sales of the quarter."
       end;
     py_exec _ := ([], Finished) |}.

(** The local path of a document once downloaded. *)
Definition downloaded_path (url dir : string) : string :=
  os_path_join dir (default EmptyString (last (PyStr.split "/" url))).

(** The download of [url] fails with a [requests.RequestException] of
    message [msg]: raised by the request, or while the answer is written to
    the file. *)
Definition download_fails (w : World) (url msg : string) : Prop :=
  requests_get w url = Raise (RequestException msg)
  \/ exists body,
       requests_get w url = Ok body
       /\ write_file w (downloaded_path url folder) body
          = Raise (RequestException msg).

(** The document of [url] is downloaded and rasterized into the page
    images [pngs]. *)
Definition fetched (w : World) (url : string) (pngs : list string) : Prop :=
  exists body,
    requests_get w url = Ok body
    /\ write_file w (downloaded_path url folder) body = Ok tt
    /\ fitz_pages w (downloaded_path url folder) = Ok (Ok <$> pngs).

(** The documents kept of [urls], where [rs] tells for each URL the page
    images of its document, or [None] for a failed download. *)
Definition kept_docs (urls : list string) (rs : list (option (list string)))
  : list (string * list string) :=
  omap (fun ur => (fun pngs => (downloaded_path ur.1 folder, pngs)) <$> ur.2)
       (zip urls rs).

(** Sample inputs. *)
Definition sample_prompt : string := "Extract the net sales of the quarter.".

Definition sample_response : string :=
  "Here is the chart." +:+ nl +:+ "<python>" +:+ nl +:+ "plt.show()" +:+ nl
  +:+ "</python>".

Definition sample_docs : list (string * list string) :=
  [ ("../downloads/pdfs/AMZN-Q3-2023-Earnings-Release.pdf",
     ["page 1 of Q3"; "page 2 of Q3"]);
    ("../downloads/pdfs/AMZN-Q4-2023-Earnings-Release.pdf",
     ["page 1 of Q4"]) ].

Definition sample_docs_one_empty : list (string * list string) :=
  [ ("../downloads/pdfs/AMZN-Q3-2023-Earnings-Release.pdf",
     ["page 1 of Q3"; "page 2 of Q3"]);
    ("../downloads/pdfs/empty.pdf", []) ].

Definition sample_urls : list string :=
  [ "https://example.com/reports/AMZN-Q3-2023-Earnings-Release.pdf";
    "https://example.com/reports/missing.pdf";
    "https://example.com/reports/AMZN-Q4-2023-Earnings-Release.pdf" ].

Definition sample_urls_one_corrupt : list string :=
  [ "https://example.com/reports/AMZN-Q3-2023-Earnings-Release.pdf";
    "https://example.com/reports/corrupt.pdf" ].

(** ** The planner cell

    [lite_prompt = generate_prompt_for_lite(QUESTION)], then
    [exit(1)] after a message when the prompt is [None] or empty.  The cell
    either goes on with its value or asks to exit with a status. *)

Inductive CellEnd (A : Type) :=
| Continue (a : A)
| Exit (status : Z).
Arguments Continue {A} a.
Arguments Exit {A} status.

Definition lite_prompt_cell (w : World) (question : PyVal) : M (CellEnd string) :=
  do lite_prompt <- generate_prompt_for_lite w question;
  match lite_prompt with
  | Some s =>
      if negb (truthy (PyStr s)) then
        print "Failed to generate prompt. Exiting.";;
        ret (Exit 1)
      else ret (Continue s)
  | None =>
      print "Failed to generate prompt. Exiting.";;
      ret (Exit 1)
  end.

(** ** The image-generation notebook

    The three cells of the text-to-image notebook run the same loop over a
    list of values (seeds, resolutions, [cfgScale]s): build a request for the
    value, print the progress, ask the image model, save the first image of
    the answer under a path made from the value, decode the images of the
    answer and keep the first; after the loop the kept images are plotted
    with the values as labels.  The loop is modelled once, for a request
    [body_of] and a path [path_of]; the seed and the resolution cells are
    instances.  (The file names of the [cfgScale] cell print floats.) *)

Record ImageGenerationConfig := {
  numberOfImages : Z; width : Z; height : Z; cfgScale : Q; seed : Z;
  quality : string
}.

Record ImageRequest := {
  taskType : string;
  textToImageParams : string;
  imageGenerationConfig : ImageGenerationConfig
}.

Inductive CanvasEvent (Image A : Type) :=
| CPrint (s : string)
| CInvoke (modelId : string) (body : ImageRequest)
| CSave (base64_image image_path : string)
| CPlot (generated_images : list Image) (labels : list A) (prompt : string)
        (comparison_mode : bool) (title_prefix : string).
Arguments CPrint {Image A} s.
Arguments CInvoke {Image A} modelId body.
Arguments CSave {Image A} base64_image image_path.
Arguments CPlot {Image A} generated_images labels prompt comparison_mode title_prefix.

(** The collaborators of the image notebook.
    - [canvas_invoke_model modelId body]:
      [bedrock_runtime_client.invoke_model], [json.loads] of the answer and
      [.get("images")], which is [None] when the answer has no such key;
    - [save_image base64_image image_path]: the helper of [utils];
    - [image_open base64_image]:
      [Image.open(io.BytesIO(base64.b64decode(base64_image)))];
    - [plot_images_for_comparison]: the helper of [utils]. *)
Record CanvasWorld (Image A : Type) := {
  canvas_invoke_model : string -> ImageRequest -> Outcome (option (list string));
  save_image : string -> string -> Outcome unit;
  image_open : string -> Outcome Image;
  plot_images_for_comparison :
    list Image -> list A -> string -> bool -> string -> Outcome unit
}.
Arguments canvas_invoke_model {Image A} _ _ _.
Arguments save_image {Image A} _ _ _.
Arguments image_open {Image A} _ _.
Arguments plot_images_for_comparison {Image A} _ _ _ _ _ _.

Definition image_generation_model_id : string := "amazon.nova-canvas-v1:0".
Definition output_dir : string := "output".

(** [base64_images[0]], where [base64_images] may be [None]. *)
Definition first_image (base64_images : option (list string)) : Outcome string :=
  match base64_images with
  | Some l => getitem l 0
  | None => Raise (OtherError "TypeError" "'NoneType' object is not subscriptable")
  end.

(** [[f(x) for x in l]]: the values in order, or the first exception. *)
Fixpoint list_comprehension {A B} (f : A -> Outcome B) (l : list A)
  : Outcome (list B) :=
  match l with
  | [] => Ok []
  | x :: rest =>
      match f x with
      | Ok y =>
          match list_comprehension f rest with
          | Ok ys => Ok (y :: ys)
          | Raise e => Raise e
          end
      | Raise e => Raise e
      end
  end.

Section ImageGeneration.

Context {Image A : Type}.
Variable cw : CanvasWorld Image A.
Variable text : string.
Variable body_of : A -> ImageRequest.
Variable path_of : A -> string.
Variable title_prefix : string.

(** Computations of this notebook. *)
Definition CM (B : Type) : Type := list (CanvasEvent Image A) * Outcome B.

Definition cbind {B C} (m : CM B) (k : B -> CM C) : CM C :=
  match m with
  | (l, Ok b) => let (l', r) := k b in (l ++ l', r)
  | (l, Raise e) => (l, Raise e)
  end.

(** The body of the loop for the value [x] at position [index] of [n]. *)
Definition generate_one (index n : nat) (x : A) : CM Image :=
  let body := body_of x in
  cbind ([CPrint ("Generating image " +:+ pretty (index + 1)%nat +:+ " of "
                  +:+ pretty n +:+ "...")], Ok tt) (fun _ =>
  cbind ([CInvoke image_generation_model_id body],
         canvas_invoke_model cw image_generation_model_id body)
        (fun base64_images =>
  let image_path := path_of x in
  cbind ([], first_image base64_images) (fun base64_image =>
  cbind ([CSave base64_image image_path], save_image cw base64_image image_path)
        (fun _ =>
  cbind ([CPrint ("Saved to " +:+ image_path)], Ok tt) (fun _ =>
  cbind ([], list_comprehension (image_open cw)
               (default [] base64_images)) (fun generated_img =>
  ([], getitem generated_img 0))))))).

(** The loop: [generated_images] grows by one image per value. *)
Fixpoint generation_loop (items : list A) (index n : nat)
    (generated_images : list Image) : CM (list Image) :=
  match items with
  | [] => ([], Ok generated_images)
  | x :: rest =>
      cbind (generate_one index n x) (fun generated_img =>
      generation_loop rest (S index) n (generated_images ++ [generated_img]))
  end.

(** A cell: the loop from an empty list, then the plot. *)
Definition generation_cell (items : list A) : CM unit :=
  cbind (generation_loop items 0 (length items) []) (fun generated_images =>
  ([CPlot generated_images items text true title_prefix],
   plot_images_for_comparison cw generated_images items text true title_prefix)).

End ImageGeneration.

(** Example 1: the seeds. *)
Definition seed_text : string :=
  "A men's collared white t-shirt, with a dog image in the center; the whole shirt is visible".

Definition seed_values : list Z := [1; 12; 20].

Definition seed_body (seed : Z) : ImageRequest :=
  {| taskType := "TEXT_IMAGE";
     textToImageParams := seed_text;
     imageGenerationConfig :=
       {| numberOfImages := 1; width := 1024; height := 1024;
          cfgScale := (13 # 2)%Q; seed := seed; quality := "premium" |} |}.

Definition seed_path (seed : Z) : string :=
  output_dir +:+ "/01-text-to-image_seed-" +:+ pretty seed +:+ ".png".

Definition seed_cell {Image} (cw : CanvasWorld Image Z) (seed_values : list Z)
  : CM unit :=
  generation_cell cw seed_text seed_body seed_path "Seed" seed_values.

(** Example 2: the resolutions, with [seed = 12]. *)
Definition ratio_text : string :=
  "A men's collared white t-shirt, with a dog in the center; the whole shirt is visible".

Definition ratio_values : list (Z * Z) := [(1024, 1024); (1280, 720); (672, 1024)].

Definition ratio_body (ratio : Z * Z) : ImageRequest :=
  {| taskType := "TEXT_IMAGE";
     textToImageParams := ratio_text;
     imageGenerationConfig :=
       {| numberOfImages := 1; width := ratio.1; height := ratio.2;
          cfgScale := (13 # 2)%Q; seed := 12; quality := "standard" |} |}.

Definition ratio_path (ratio : Z * Z) : string :=
  output_dir +:+ "/01-text-to-image_resolution-" +:+ pretty ratio.1 +:+ "x"
  +:+ pretty ratio.2 +:+ ".png".

Definition ratio_cell {Image} (cw : CanvasWorld Image (Z * Z))
    (ratio_values : list (Z * Z)) : CM unit :=
  generation_cell cw ratio_text ratio_body ratio_path "Ratio" ratio_values.

(** The requests, the files saved and the plots among the events. *)
Definition canvas_invocations {Image A} (log : list (CanvasEvent Image A))
  : list (string * ImageRequest) :=
  omap (fun ev => match ev with
                  | CInvoke modelId body => Some (modelId, body)
                  | _ => None
                  end) log.

Definition saved_paths {Image A} (log : list (CanvasEvent Image A)) : list string :=
  omap (fun ev => match ev with
                  | CSave _ image_path => Some image_path
                  | _ => None
                  end) log.

Definition plots {Image A} (log : list (CanvasEvent Image A))
  : list (list Image * list A) :=
  omap (fun ev => match ev with
                  | CPlot generated_images labels _ _ _ =>
                      Some (generated_images, labels)
                  | _ => None
                  end) log.

(** The value [x] is answered with at least one image, the first is saved
    and all decode; [img] is the first decoded. *)
Definition answered {Image A} (cw : CanvasWorld Image A)
    (body_of : A -> ImageRequest) (path_of : A -> string)
    (x : A) (img : Image) : Prop :=
  exists b0 bs imgs,
    canvas_invoke_model cw image_generation_model_id (body_of x)
    = Ok (Some (b0 :: bs))
    /\ save_image cw b0 (path_of x) = Ok tt
    /\ list_comprehension (image_open cw) (b0 :: bs) = Ok (img :: imgs).

(** The value [x] fails with [e] before anything is saved: the call raises
    [e], or the answer has no image. *)
Definition unanswered {Image A} (cw : CanvasWorld Image A)
    (body_of : A -> ImageRequest) (x : A) (e : Exn) : Prop :=
  canvas_invoke_model cw image_generation_model_id (body_of x) = Raise e
  \/ (canvas_invoke_model cw image_generation_model_id (body_of x) = Ok None
      /\ e = OtherError "TypeError" "'NoneType' object is not subscriptable")
  \/ (canvas_invoke_model cw image_generation_model_id (body_of x) = Ok (Some [])
      /\ e = IndexError "list index out of range").

(** The first image of the answer for [x] is saved, but an image of the
    answer does not decode: [e] is the exception. *)
Definition undecodable {Image A} (cw : CanvasWorld Image A)
    (body_of : A -> ImageRequest) (path_of : A -> string)
    (x : A) (e : Exn) : Prop :=
  exists b0 bs,
    canvas_invoke_model cw image_generation_model_id (body_of x)
    = Ok (Some (b0 :: bs))
    /\ save_image cw b0 (path_of x) = Ok tt
    /\ list_comprehension (image_open cw) (b0 :: bs) = Raise e.

(** A sample image world: images are their base64 texts; the model
    answers one image per request, except for the seed 13, for which the call
    raises. *)
Definition sample_canvas_world (A : Type) : CanvasWorld string A :=
  {| canvas_invoke_model _ body :=
       if seed (imageGenerationConfig body) =? 13
       then Raise (OtherError "ThrottlingException" "Too many requests")
       else Ok (Some ["image for seed " +:+ pretty (seed (imageGenerationConfig body))
                      +:+ " at " +:+ pretty (width (imageGenerationConfig body))
                      +:+ "x" +:+ pretty (height (imageGenerationConfig body))]);
     save_image _ _ := Ok tt;
     image_open base64_image := Ok base64_image;
     plot_images_for_comparison _ _ _ _ _ := Ok tt |}.

(** A second image world: the answer for the seed 14 holds a second image
    that is no image. *)
Definition sample_canvas_world_corrupt : CanvasWorld string Z :=
  {| canvas_invoke_model _ body :=
       if seed (imageGenerationConfig body) =? 14
       then Ok (Some ["image for seed 14"; "not an image"])
       else Ok (Some ["image for seed "
                      +:+ pretty (seed (imageGenerationConfig body))]);
     save_image _ _ := Ok tt;
     image_open base64_image :=
       if String.eqb base64_image "not an image"
       then Raise (OtherError "UnidentifiedImageError" "cannot identify image file")
       else Ok base64_image;
     plot_images_for_comparison _ _ _ _ _ := Ok tt |}.

(** A second sample world: a file name that ends with a slash cannot be
    opened for writing, and the second page of [damaged.pdf] cannot be
    rendered; executed code that reaches [raise SystemExit(3)] exits, other
    code that starts with [n>] is a syntax error, and [print('done')]
    prints. *)
Definition sample_world_io : World :=
  {| requests_get := requests_get sample_world;
     write_file file_name _ :=
       if PyStr.endswith "/" file_name
       then Raise (OtherError "IsADirectoryError" "[Errno 21] Is a directory")
       else Ok tt;
     fitz_pages pdf_path :=
       if PyStr.endswith "/damaged.pdf" pdf_path
       then Ok [Ok "page 1"; Raise (OtherError "RuntimeError" "cannot render page");
                Ok "page 3"]
       else fitz_pages sample_world pdf_path;
     invoke_model := invoke_model sample_world;
     py_exec code :=
       if PyStr.contains "raise SystemExit(3)" code
       then ([], Escaped "SystemExit" "3")
       else if PyStr.startswith "n>" code
       then ([], Raised (OtherError "SyntaxError" "invalid syntax"))
       else if PyStr.contains "print('done')" code
       then ([EvPrint "done"], Finished)
       else ([], Finished) |}.

(** * Facts about the string operations *)

Module PyStrFacts.
Import PyStr.

#[local] Arguments String.append !_ _ / : simpl nomatch.

Lemma str_app_nil_r (s : string) : s +:+ EmptyString = s.
Proof. induction s as [|c s IH]; simpl; [reflexivity | now rewrite IH]. Qed.

Lemma str_app_assoc (a b c : string) : (a +:+ b) +:+ c = a +:+ b +:+ c.
Proof. induction a as [|x a IH]; simpl; [reflexivity | now rewrite IH]. Qed.

Lemma str_length_app (a b : string) :
  String.length (a +:+ b) = (String.length a + String.length b)%nat.
Proof. induction a as [|x a IH]; simpl; [reflexivity | now rewrite IH]. Qed.

Lemma len_app (a b : string) : len (a +:+ b) = len a + len b.
Proof. unfold len. rewrite str_length_app. lia. Qed.

Lemma len_nonneg (s : string) : 0 <= len s.
Proof. unfold len. lia. Qed.

(** [startswith] is the prefix relation. *)
Lemma startswith_spec (p s : string) :
  startswith p s = true <-> exists r, s = p +:+ r.
Proof.
  revert s. induction p as [|a p IH]; intros s; simpl.
  - split; [intros _; now exists s | reflexivity].
  - destruct s as [|b s].
    + split; [discriminate | intros [r Hr]; discriminate].
    + destruct (Ascii.eqb_spec a b) as [->|Hab].
      * rewrite IH. split; intros [r Hr].
        -- exists r. now rewrite Hr.
        -- exists r. now inversion Hr.
      * split; [discriminate | intros [r Hr]; inversion Hr; congruence].
Qed.

Lemma startswith_app (p r : string) : startswith p (p +:+ r) = true.
Proof. apply startswith_spec. now exists r. Qed.

(** [contains] is the substring relation. *)
Lemma contains_spec (p s : string) :
  contains p s = true <-> exists a b, s = a +:+ p +:+ b.
Proof.
  induction s as [|c s IH].
  - simpl. rewrite orb_false_r, startswith_spec. split.
    + intros [r Hr]. exists EmptyString, r. exact Hr.
    + intros [a [b Hab]]. destruct a as [|x a]; [now exists b | discriminate].
  - simpl. rewrite orb_true_iff, startswith_spec, IH. split.
    + intros [[r Hr] | [a [b Hab]]].
      * exists EmptyString, r. exact Hr.
      * exists (String c a), b. simpl. now rewrite Hab.
    + intros [a [b Hab]]. destruct a as [|x a].
      * left. now exists b.
      * right. exists a, b. now inversion Hab.
Qed.

Lemma contains_cons_false (p : string) (c : ascii) (s : string) :
  contains p (String c s) = false ->
  startswith p (String c s) = false /\ contains p s = false.
Proof. simpl. intros H. now apply orb_false_iff in H. Qed.

(** [find] answers [-1] exactly when the pattern does not occur. *)
Lemma find_from_range (p s : string) (i : Z) :
  find_from p s i = -1 \/ i <= find_from p s i <= i + len s.
Proof.
  revert i. induction s as [|c s IH]; intros i; simpl.
  - destruct (startswith p EmptyString); [right; unfold len; simpl; lia | now left].
  - destruct (startswith p (String c s)).
    + right. pose proof (len_nonneg (String c s)). lia.
    + destruct (IH (i + 1)) as [H|H]; [now left | right].
      unfold len in *. simpl String.length. lia.
Qed.

Lemma find_from_absent (p s : string) (i : Z) :
  contains p s = false -> find_from p s i = -1.
Proof.
  revert i. induction s as [|c s IH]; intros i H.
  - simpl in *. rewrite orb_false_r in H. now rewrite H.
  - apply contains_cons_false in H as [H1 H2].
    cbn [find_from]. rewrite H1. now apply IH.
Qed.

Lemma find_from_present (p s : string) (i : Z) :
  0 <= i -> contains p s = true -> find_from p s i <> -1.
Proof.
  revert i. induction s as [|c s IH]; intros i Hi H.
  - simpl in *. rewrite orb_false_r in H. rewrite H. lia.
  - cbn [find_from]. simpl in H.
    destruct (startswith p (String c s)); [lia|].
    apply IH; [lia | exact H].
Qed.

Lemma find_absent_iff (s p : string) :
  find s p = -1 <-> contains p s = false.
Proof.
  split.
  - intros H. destruct (contains p s) eqn:E; [|reflexivity].
    now apply (find_from_present p s 0) in E; [|lia].
  - apply find_from_absent.
Qed.

(** A pattern whose first character does not occur again in it cannot
    overlap a later occurrence of itself. *)
Lemma startswith_before_fresh (c : ascii) (t u r : string) :
  occurs c t = false ->
  startswith t (u +:+ String c r) = true -> startswith t u = true.
Proof.
  revert u. induction t as [|y t IH]; intros u Hc H; [reflexivity|].
  simpl in Hc. apply orb_false_iff in Hc as [Hy Hc].
  destruct u as [|z u]; simpl in *.
  - rewrite Hy in H. discriminate.
  - destruct (Ascii.eqb y z); [|discriminate]. now apply IH.
Qed.

(** The first occurrence of such a pattern is where [find] stops. *)
Lemma find_from_first (c : ascii) (t a b : string) (i : Z) :
  occurs c t = false ->
  contains (String c t) a = false ->
  find_from (String c t) (a +:+ String c t +:+ b) i = i + len a.
Proof.
  intros Hc. revert i. induction a as [|x a IH]; intros i Ha.
  - change (EmptyString +:+ String c t +:+ b) with (String c t +:+ b).
    pose proof (startswith_app (String c t) b) as Hs.
    change (String c t +:+ b) with (String c (t +:+ b)) in *.
    cbn [find_from]. rewrite Hs. unfold len. simpl. lia.
  - apply contains_cons_false in Ha as [H1 H2].
    change (String x a +:+ String c t +:+ b)
      with (String x (a +:+ String c t +:+ b)).
    cbn [find_from].
    assert (Hs : startswith (String c t) (String x (a +:+ String c t +:+ b)) = false).
    { destruct (startswith (String c t) (String x (a +:+ String c t +:+ b))) eqn:E;
        [|reflexivity].
      simpl in E, H1. destruct (Ascii.eqb c x); [|discriminate].
      apply startswith_before_fresh in E; [congruence | exact Hc]. }
    rewrite Hs, IH by assumption.
    unfold len. simpl String.length. lia.
Qed.

(** Nor can it start before a later occurrence of its first character and
    run over it. *)
Lemma contains_app_fresh (c : ascii) (t a r : string) :
  occurs c t = false ->
  contains (String c t) a = false ->
  contains (String c t) (a +:+ String c r) = contains (String c t) (String c r).
Proof.
  intros Hc. induction a as [|x a IH]; intros Ha; [reflexivity|].
  apply contains_cons_false in Ha as [H1 H2].
  change (String x a +:+ String c r) with (String x (a +:+ String c r)).
  cbn [contains]. rewrite IH by assumption.
  destruct (startswith (String c t) (String x (a +:+ String c r))) eqn:E;
    [|reflexivity].
  simpl in E, H1. destruct (Ascii.eqb c x); [|discriminate].
  apply startswith_before_fresh in E; [congruence | exact Hc].
Qed.

(** Slices of a concatenation. *)
Lemma drop_app (a b : string) : drop (String.length a) (a +:+ b) = b.
Proof. induction a as [|x a IH]; simpl; [now destruct b | exact IH]. Qed.

Lemma take_app (a b : string) : take (String.length a) (a +:+ b) = a.
Proof. induction a as [|x a IH]; simpl; [reflexivity | now rewrite IH]. Qed.

Lemma drop_drop (n m : nat) (s : string) : drop n (drop m s) = drop (m + n) s.
Proof.
  revert s. induction m as [|m IH]; intros s; simpl; [reflexivity|].
  destruct s; [now destruct n | apply IH].
Qed.

Lemma slice_prefix (a b : string) :
  slice (a +:+ b) None (Some (len a)) = a.
Proof.
  unfold slice, clip. rewrite len_app.
  pose proof (len_nonneg a). pose proof (len_nonneg b).
  destruct (Z.ltb_spec (len a) 0); [lia|].
  rewrite Z.min_l by lia. simpl drop.
  replace (Z.to_nat (len a - 0)) with (String.length a) by (unfold len; lia).
  apply take_app.
Qed.

Lemma slice_middle (a x b : string) (k : nat) :
  (k <= String.length x)%nat ->
  slice (a +:+ x +:+ b) (Some (len a + Z.of_nat k)) (Some (len a + len x))
  = drop k x.
Proof.
  intros Hk. unfold slice, clip. rewrite !len_app.
  pose proof (len_nonneg a). pose proof (len_nonneg b). pose proof (len_nonneg x).
  destruct (Z.ltb_spec (len a + Z.of_nat k) 0); [lia|].
  destruct (Z.ltb_spec (len a + len x) 0); [lia|].
  assert (Hkx : Z.of_nat k <= len x) by (unfold len; lia).
  rewrite !Z.min_l by lia.
  replace (Z.to_nat (len a + Z.of_nat k)) with (String.length a + k)%nat
    by (unfold len; lia).
  rewrite <- drop_drop, drop_app.
  replace (Z.to_nat (len a + len x - (len a + Z.of_nat k)))
    with (String.length x - k)%nat by (unfold len; lia).
  clear -Hk. revert k Hk. induction x as [|c x IH]; intros k Hk.
  - simpl in Hk. assert (k = 0%nat) as -> by lia. reflexivity.
  - destruct k as [|k].
    + change (drop 0 (String c x +:+ b)) with (String c (x +:+ b)).
      change (drop 0 (String c x)) with (String c x).
      replace (String.length (String c x) - 0)%nat with (String.length (String c x)) by lia.
      apply (take_app (String c x) b).
    + simpl. apply IH. simpl in Hk. lia.
Qed.

(** Stripping. *)
Lemma lstrip_nonspace (c : ascii) (s : string) :
  isspace c = false -> lstrip (String c s) = String c s.
Proof. intros H. simpl. now rewrite H. Qed.

Lemma rstrip_nonspace (c : ascii) (s : string) :
  isspace c = false -> rstrip (String c s) = String c (rstrip s).
Proof. intros H. simpl. rewrite H. now destruct (rstrip s). Qed.

Lemma rstrip_cons_length (c : ascii) (s : string) :
  (String.length (rstrip s) <= String.length (rstrip (String c s)))%nat.
Proof.
  simpl. destruct (rstrip s) as [|x r]; simpl; lia.
Qed.

Lemma strip_length (s : string) :
  (String.length (strip s) <= String.length (rstrip s))%nat.
Proof.
  unfold strip. induction s as [|c s IH]; [reflexivity|].
  cbn [lstrip]. destruct (isspace c) eqn:E; [|lia].
  pose proof (rstrip_cons_length c s). lia.
Qed.

End PyStrFacts.

(** * Facts about the parser of the synthesis answer *)

Section ExtractCode.
Import PyStr PyStrFacts.

#[local] Arguments String.append !_ _ / : simpl nomatch.

(** Without one of the delimiters nothing is extracted. *)
Lemma extract_code_absent (response : string) :
  contains "<python>" response = false \/ contains "</python>" response = false ->
  extract_code response = (None, strip response).
Proof.
  intros H. unfold extract_code.
  destruct H as [H|H]; apply find_absent_iff in H; rewrite H.
  - reflexivity.
  - now rewrite andb_false_r.
Qed.

(** With both delimiters, each at its first occurrence, the fragment
    handed back starts two characters before [F]: the slice begins at
    [start + 6] and the start delimiter has eight characters. *)
Lemma extract_code_delimited (pre F post : string) :
  contains "<python>" pre = false ->
  contains "</python>" (pre +:+ "<python>" +:+ F) = false ->
  extract_code (pre +:+ "<python>" +:+ F +:+ "</python>" +:+ post)
  = (Some ("n>" +:+ rstrip F), strip pre).
Proof.
  intros Hpre HF. unfold extract_code, find.
  rewrite (find_from_first "<" "python>" pre (F +:+ "</python>" +:+ post) 0)
    by (reflexivity || assumption).
  replace (pre +:+ "<python>" +:+ F +:+ "</python>" +:+ post)
    with ((pre +:+ "<python>" +:+ F) +:+ "</python>" +:+ post)
    by now rewrite !str_app_assoc.
  rewrite (find_from_first "<" "/python>" (pre +:+ "<python>" +:+ F) post 0)
    by (reflexivity || assumption).
  pose proof (len_nonneg pre) as Hp.
  pose proof (len_nonneg (pre +:+ "<python>" +:+ F)) as Hq.
  destruct (Z.eqb_spec (0 + len pre) (-1)); [lia|].
  destruct (Z.eqb_spec (0 + len (pre +:+ "<python>" +:+ F)) (-1)); [lia|].
  cbn [negb andb]. f_equal.
  - f_equal.
    replace ((pre +:+ "<python>" +:+ F) +:+ "</python>" +:+ post)
      with (pre +:+ ("<python>" +:+ F) +:+ ("</python>" +:+ post))
      by now rewrite !str_app_assoc.
    replace (0 + len pre + 6) with (len pre + Z.of_nat 6) by lia.
    replace (0 + len (pre +:+ "<python>" +:+ F))
      with (len pre + len ("<python>" +:+ F)) by (rewrite !len_app; lia).
    rewrite slice_middle by (simpl; lia).
    change (drop 6 ("<python>" +:+ F)) with (String "n" (String ">" F)).
    unfold strip. rewrite lstrip_nonspace by reflexivity.
    now rewrite !rstrip_nonspace by reflexivity.
  - f_equal. rewrite str_app_assoc.
    replace (0 + len pre) with (len pre) by lia.
    apply slice_prefix.
Qed.

(** What it hands back is never [F] stripped. *)
Lemma shifted_fragment_differs (F : string) :
  "n>" +:+ rstrip F <> strip F.
Proof.
  intros H. apply (f_equal String.length) in H.
  rewrite str_length_app in H. pose proof (strip_length F). simpl in H. lia.
Qed.

End ExtractCode.

(** * Facts about the thread pool *)

Section Pool.
Context {B : Type}.
Implicit Types (tasks : list (M B)) (sched : list nat).

Lemma run_tasks_snoc tasks sched i :
  run_tasks tasks (sched ++ [i])
  = match tasks !! i with
    | Some t => ((run_tasks tasks sched).1 ++ t.1,
                 <[i := t.2]> (run_tasks tasks sched).2)
    | None => run_tasks tasks sched
    end.
Proof. unfold run_tasks. by rewrite foldl_snoc. Qed.

(** The events of a run are those of the tasks, task after task in the
    order of the schedule. *)
Lemma run_tasks_log tasks sched :
  (run_tasks tasks sched).1
  = sched ≫= (λ i, from_option fst [] (tasks !! i)).
Proof.
  induction sched as [|i sched IH] using rev_ind; [done|].
  rewrite run_tasks_snoc, bind_app. simpl. rewrite app_nil_r.
  destruct (tasks !! i); simpl; rewrite IH; [done | by rewrite app_nil_r].
Qed.

(** The future of a task holds its result once the task has run. *)
Lemma run_tasks_futures tasks sched i :
  (run_tasks tasks sched).2 !! i
  = if decide (i ∈ sched) then snd <$> tasks !! i else None.
Proof.
  induction sched as [|j sched IH] using rev_ind.
  - rewrite decide_False by set_solver. apply lookup_empty.
  - rewrite run_tasks_snoc. destruct (tasks !! j) as [t|] eqn:E; simpl.
    + destruct (decide (j = i)) as [->|Hne].
      * rewrite lookup_insert_eq. rewrite decide_True by set_solver.
        by rewrite E.
      * rewrite lookup_insert_ne by done. rewrite IH.
        apply decide_ext.
        rewrite elem_of_app, list_elem_of_singleton.
        split; [by left | intros [?|?]; [done | congruence]].
    + rewrite IH. destruct (decide (j = i)) as [->|Hne].
      * rewrite E. simpl.
        by destruct (decide (i ∈ sched)), (decide (i ∈ sched ++ [i])).
      * apply decide_ext.
        rewrite elem_of_app, list_elem_of_singleton.
        split; [by left | intros [?|?]; [done | congruence]].
Qed.

Lemma results_in_order (futures : gmap nat (Outcome B)) (l : list (Outcome B)) i :
  (∀ k, (k < length l)%nat → futures !! (i + k)%nat = l !! k) →
  results futures i (length l) = Some (in_order l).
Proof.
  revert i. induction l as [|r l IH]; intros i H; [done|].
  simpl. pose proof (H 0%nat ltac:(simpl; lia)) as H0.
  rewrite Nat.add_0_r in H0. rewrite H0. simpl.
  destruct r as [b|e]; [|done].
  rewrite IH; [by destruct (in_order l)|].
  intros k Hk. replace (S i + k)%nat with (i + S k)%nat by lia.
  apply (H (S k)). simpl. lia.
Qed.

(** When every task runs, [executor.map] delivers the results in input
    order whatever the order of completion. *)
Lemma executor_map_spec {A} (f : A → M B) (xs : list A) sched :
  sched ≡ₚ seq 0 (length xs) →
  executor_map f xs sched
  = Some (sched ≫= (λ i, from_option (λ x, (f x).1) [] (xs !! i)),
          in_order ((λ x, (f x).2) <$> xs)).
Proof.
  intros Hp. unfold executor_map.
  destruct (run_tasks (map f xs) sched) as [log futures] eqn:E.
  assert (Hlog : log = (run_tasks (map f xs) sched).1) by by rewrite E.
  assert (Hfut : futures = (run_tasks (map f xs) sched).2) by by rewrite E.
  replace (length xs) with (length ((λ x, (f x).2) <$> xs)) at 1
    by apply length_fmap.
  rewrite results_in_order.
  - f_equal. f_equal. rewrite Hlog, run_tasks_log.
    apply list_bind_ext; [|done]. intros i.
    rewrite list_lookup_fmap. by destruct (xs !! i).
  - intros k Hk. rewrite length_fmap in Hk.
    rewrite Hfut, run_tasks_futures. simpl.
    rewrite decide_True.
    + rewrite !list_lookup_fmap. by destruct (xs !! k).
    + rewrite Hp. apply elem_of_seq. lia.
Qed.

End Pool.

(** * Facts about computations *)

Section Computations.
Context {A B : Type}.

Lemma bind_fst (m : M A) (k : A → M B) :
  (bind m k).1 = m.1 ++ match m.2 with Ok a => (k a).1 | Raise _ => [] end.
Proof.
  destruct m as [l [a|e]]; simpl; [by destruct (k a) | by rewrite app_nil_r].
Qed.

Lemma bind_snd (m : M A) (k : A → M B) :
  (bind m k).2 = match m.2 with Ok a => (k a).2 | Raise e => Raise e end.
Proof. destruct m as [l [a|e]]; simpl; [by destruct (k a) | done]. Qed.

(** A cell that maps over a pool and goes on with [k]. *)
Lemma then_executor_map {C} (f : C → M A) (xs : list C) (k : list A → M B)
    (sched : list nat) :
  sched ≡ₚ seq 0 (length xs) →
  then_ (executor_map f xs sched) k
  = Some (bind (sched ≫= (λ i, from_option (λ x, (f x).1) [] (xs !! i)),
                in_order ((λ x, (f x).2) <$> xs)) k).
Proof. intros Hp. by rewrite executor_map_spec. Qed.

Lemma in_order_raise (l : list (Outcome A)) (e : Exn) :
  Raise e ∈ l → ∃ e', in_order l = Raise e' ∧ Raise e' ∈ l.
Proof.
  induction l as [|r l IH]; intros H; [by apply elem_of_nil in H|].
  destruct r as [a|e0].
  - apply elem_of_cons in H as [H|H]; [done|].
    destruct (IH H) as (e' & He' & Hin). exists e'. simpl. rewrite He'.
    split; [done | by right].
  - exists e0. split; [done | by left].
Qed.

Lemma in_order_ok (l : list A) : in_order (Ok <$> l) = Ok l.
Proof.
  induction l as [|a l IH]; [done|].
  rewrite fmap_cons. cbn [in_order]. by rewrite IH.
Qed.

End Computations.

(** Every index is looked up once when the schedule is a permutation. *)
Lemma bind_lookup_seq {A B} (h : A → list B) (xs pre : list A) :
  seq (length pre) (length xs) ≫= (λ i, from_option h [] ((pre ++ xs) !! i))
  = xs ≫= h.
Proof.
  revert pre. induction xs as [|x xs IH]; intros pre; [done|].
  cbn [length seq]. rewrite !bind_cons, list_lookup_middle by done.
  cbn [from_option]. f_equal.
  rewrite <- (IH (pre ++ [x])), <- app_assoc, length_app.
  cbn [length app]. by rewrite Nat.add_1_r.
Qed.

Lemma bind_lookup_Permutation {A B} (h : A → list B) (xs : list A) (sched : list nat) :
  sched ≡ₚ seq 0 (length xs) →
  sched ≫= (λ i, from_option h [] (xs !! i)) ≡ₚ xs ≫= h.
Proof. intros ->. by rewrite <- (bind_lookup_seq h xs []). Qed.

(** * The worker and aggregator stage *)

Section Worker.
Variable w : World.
Implicit Types (docs : list (string * list string)) (sched : list nat).

Lemma extract_info_fst pdf_path pngs lite_prompt :
  (extract_info w pdf_path pngs lite_prompt).1
  = [EvInvoke nova_lite (extract_info_request pngs lite_prompt)].
Proof.
  unfold extract_info, call. rewrite bind_fst. simpl.
  by destruct (invoke_model w nova_lite _).
Qed.

Lemma extract_info_snd pdf_path pngs lite_prompt :
  (extract_info w pdf_path pngs lite_prompt).2
  = worker_result w lite_prompt (pdf_path, pngs).
Proof.
  unfold extract_info, call, worker_result. rewrite bind_snd. simpl.
  by destruct (invoke_model w nova_lite _).
Qed.

Lemma aggregate_eq l :
  aggregate l
  = match extracted_info_loop l EmptyString with
    | Ok s => ([EvPrint s], Ok s)
    | Raise e => ([], Raise e)
    end.
Proof. unfold aggregate, lift. simpl. by destruct (extracted_info_loop _ _). Qed.

Lemma extracted_info_eq docs lite_prompt sched :
  sched ≡ₚ seq 0 (length docs) →
  extracted_info w docs lite_prompt sched
  = Some (bind
            (sched ≫= (λ i, from_option
                 (λ d, [EvInvoke nova_lite (extract_info_request d.2 lite_prompt)])
                 [] (docs !! i)),
             in_order (worker_result w lite_prompt <$> docs))
            aggregate).
Proof.
  intros Hp. unfold extracted_info. rewrite then_executor_map by done.
  f_equal. f_equal. f_equal.
  - apply list_bind_ext; [|done]. intros i.
    destruct (docs !! i) as [[p pngs]|]; [|done]. apply extract_info_fst.
  - f_equal. apply list_fmap_ext. intros _ [p pngs] _. apply extract_info_snd.
Qed.

Lemma invocations_app l1 l2 :
  invocations (l1 ++ l2) = invocations l1 ++ invocations l2.
Proof. apply omap_app. Qed.

Lemma invocations_requests docs lite_prompt :
  invocations
    (docs ≫= (λ d, [EvInvoke nova_lite (extract_info_request d.2 lite_prompt)]))
  = (λ d, (nova_lite, extract_info_request d.2 lite_prompt)) <$> docs.
Proof.
  induction docs as [|d docs IH]; [done|].
  rewrite bind_cons, invocations_app, IH. done.
Qed.

Lemma aggregate_invocations l : invocations (aggregate l).1 = [].
Proof. rewrite aggregate_eq. by destruct (extracted_info_loop _ _). Qed.

Lemma images_of_extract_info_request pngs lite_prompt :
  images_of (extract_info_request pngs lite_prompt) = pngs.
Proof.
  unfold images_of, extract_info_request. simpl.
  rewrite app_nil_r, omap_app. simpl. rewrite app_nil_r.
  induction pngs as [|png pngs IH]; [done|]. simpl. f_equal. apply IH.
Qed.

Lemma texts_of_extract_info_request pngs lite_prompt :
  texts_of (extract_info_request pngs lite_prompt) = [lite_prompt].
Proof.
  unfold texts_of, extract_info_request. simpl.
  rewrite app_nil_r, omap_app. simpl.
  induction pngs as [|png pngs IH]; [done|]. simpl. apply IH.
Qed.

End Worker.

Section WorkerClaims.
Variable w : World.
Implicit Types (docs : list (string * list string)) (sched : list nat).

(** The loop appends one labeled block per answer, in list order. *)
Lemma extracted_info_loop_blocks (l : list (string * string))
    (quarters : list string) (acc : string) :
  Forall2 (λ x q, getitem (PyStr.split "-" (os_path_basename x.2)) 1 = Ok q)
          l quarters →
  extracted_info_loop l acc
  = Ok (acc +:+ concat_str (zip_with info_block quarters l.*1)).
Proof.
  intros H. revert acc. induction H as [|[info p] q l qs Hq _ IH]; intros acc.
  - simpl. by rewrite PyStrFacts.str_app_nil_r.
  - cbn [extracted_info_loop]. simpl in Hq. rewrite Hq, IH.
    f_equal. cbn [fmap list_fmap zip_with concat_str fst].
    unfold info_block. by rewrite !PyStrFacts.str_app_assoc.
Qed.

(** The result of the worker cell does not mention the schedule. *)
Lemma extracted_info_outcome docs lite_prompt sched :
  sched ≡ₚ seq 0 (length docs) →
  outcome (extracted_info w docs lite_prompt sched)
  = Some (match in_order (worker_result w lite_prompt <$> docs) with
          | Ok l => extracted_info_loop l EmptyString
          | Raise e => Raise e
          end).
Proof.
  intros Hp. rewrite extracted_info_eq by done. unfold outcome.
  cbn [fmap option_fmap option_map]. f_equal. rewrite bind_snd. cbn [snd].
  destruct (in_order _) as [l|e]; [|done].
  rewrite aggregate_eq. by destruct (extracted_info_loop _ _).
Qed.

(** C3: the combined context depends on the input order of the documents,
    not on the order in which the worker calls complete: two runs whose
    schedules differ end with the same result, and when every call answers
    that result is the concatenation of the labeled blocks in input
    order. *)
Theorem combined_context_ignores_completion_order
    docs lite_prompt sched1 sched2 :
  sched1 ≡ₚ seq 0 (length docs) →
  sched2 ≡ₚ seq 0 (length docs) →
  outcome (extracted_info w docs lite_prompt sched1)
  = outcome (extracted_info w docs lite_prompt sched2)
  ∧ ∀ infos quarters,
      Forall2 (λ d info,
                 invoke_model w nova_lite (extract_info_request d.2 lite_prompt)
                 = Ok info) docs infos →
      Forall2 (λ d q, getitem (PyStr.split "-" (os_path_basename d.1)) 1 = Ok q)
              docs quarters →
      outcome (extracted_info w docs lite_prompt sched1)
      = Some (Ok (concat_str (zip_with info_block quarters infos))).
Proof.
  intros Hp1 Hp2.
  rewrite !extracted_info_outcome by done. split; [done|].
  intros infos quarters Hinfo Hq. f_equal. clear Hp1 Hp2.
  assert (Hl : worker_result w lite_prompt <$> docs
               = Ok <$> zip infos docs.*1).
  { clear Hq. induction Hinfo as [|d info docs infos Hd _ IH]; [done|].
    rewrite !fmap_cons. cbn [zip zip_with]. rewrite fmap_cons, IH.
    f_equal. unfold worker_result. by rewrite Hd. }
  rewrite Hl, in_order_ok.
  rewrite (extracted_info_loop_blocks _ quarters).
  - f_equal. cbn [String.append]. f_equal.
    apply Forall2_length in Hinfo. rewrite fst_zip; [done|].
    rewrite length_fmap. lia.
  - clear Hl. revert infos Hinfo.
    induction Hq as [|d q docs qs Hd _ IH]; intros infos Hinfo.
    + apply Forall2_nil_inv_l in Hinfo as ->. constructor.
    + apply Forall2_cons_inv_l in Hinfo as (info & infos' & _ & Hinfo & ->).
      rewrite fmap_cons. cbn [zip zip_with]. constructor; [done | by apply IH].
Qed.

(** C8: a fan-out over N documents issues exactly N worker requests, one
    per document, each carrying that document's page images in page order
    followed by the shared prompt, and nothing else. *)
Theorem worker_requests_one_per_document docs lite_prompt sched :
  sched ≡ₚ seq 0 (length docs) →
  ∃ log r,
    extracted_info w docs lite_prompt sched = Some (log, r)
    ∧ invocations log
      ≡ₚ (λ d, (nova_lite, extract_info_request d.2 lite_prompt)) <$> docs
    ∧ length (invocations log) = length docs
    ∧ ∀ d, d ∈ docs →
        images_of (extract_info_request d.2 lite_prompt) = d.2
        ∧ texts_of (extract_info_request d.2 lite_prompt) = [lite_prompt].
Proof.
  intros Hp. rewrite extracted_info_eq by done.
  set (m := bind _ aggregate). exists m.1, m.2.
  assert (Hinv : invocations m.1
            ≡ₚ (λ d, (nova_lite, extract_info_request d.2 lite_prompt)) <$> docs).
  { subst m. rewrite bind_fst. cbn [fst snd]. rewrite invocations_app.
    assert (invocations
              match in_order (worker_result w lite_prompt <$> docs) with
              | Ok a => (aggregate a).1
              | Raise _ => []
              end = []) as ->.
    { destruct (in_order _); [apply aggregate_invocations | done]. }
    rewrite app_nil_r. unfold invocations at 1.
    rewrite (bind_lookup_Permutation _ docs sched Hp).
    by rewrite <- invocations_requests. }
  split; [by destruct m|]. split; [done|]. split.
  - by rewrite Hinv, length_fmap.
  - intros d _. split.
    + apply images_of_extract_info_request.
    + apply texts_of_extract_info_request.
Qed.

(** C10: when the model call of one document raises, the worker cell
    ends with an exception of a worker call: no combined context is built or
    printed, and the other documents' answers are lost with it. *)
Theorem worker_failure_aborts_aggregation docs lite_prompt sched d e :
  sched ≡ₚ seq 0 (length docs) →
  d ∈ docs →
  invoke_model w nova_lite (extract_info_request d.2 lite_prompt) = Raise e →
  ∃ log e',
    extracted_info w docs lite_prompt sched = Some (log, Raise e')
    ∧ printed log = []
    ∧ ∃ d', d' ∈ docs
        ∧ invoke_model w nova_lite (extract_info_request d'.2 lite_prompt)
          = Raise e'.
Proof.
  intros Hp Hd He. rewrite extracted_info_eq by done.
  assert (Hin : Raise e ∈ worker_result w lite_prompt <$> docs).
  { apply list_elem_of_fmap. exists d. split; [|done].
    unfold worker_result. by rewrite He. }
  apply in_order_raise in Hin as (e' & He' & Hin').
  rewrite He'. cbn [bind].
  eexists _, e'. split; [done|]. split.
  - clear. induction sched as [|i sched IH]; [done|].
    rewrite bind_cons. unfold printed in *. rewrite omap_app, IH, app_nil_r.
    by destruct (docs !! i).
  - apply list_elem_of_fmap in Hin' as (d' & Hd' & Hin').
    exists d'. split; [done|]. unfold worker_result in Hd'.
    destruct (invoke_model w nova_lite _) eqn:E in Hd'; congruence.
Qed.

End WorkerClaims.

(** * The fetch stage *)

Section Fetch.
Variable w : World.
Implicit Types (urls : list string) (sched : list nat).

(** A request that fails with a [RequestException] is reported and
    answered with [None]. *)
Lemma download_pdf_request_failure url dir msg :
  requests_get w url = Raise (RequestException msg) →
  download_pdf w url dir
  = ([EvGet url;
      EvPrint ("Failed to download PDF from " +:+ url +:+ ": " +:+ msg)],
     Ok None).
Proof. intros H. unfold download_pdf, call. by rewrite H. Qed.

(** Any other exception leaves [download_pdf]. *)
Lemma download_pdf_other_failure url dir e :
  requests_get w url = Raise e → is_RequestException e = false →
  download_pdf w url dir = ([EvGet url], Raise e).
Proof. intros H He. unfold download_pdf, call. rewrite H. simpl. by rewrite He. Qed.

(** A path handed back by [download_pdf] lies in the folder. *)
Lemma download_pdf_path url dir p :
  (download_pdf w url dir).2 = Ok (Some p) →
  ∃ name, p = os_path_join dir name.
Proof.
  unfold download_pdf, call, lift. intros H.
  destruct (requests_get w url) as [body|e]; simpl in H.
  - destruct (getitem _ _) as [name|e]; simpl in H.
    + destruct (write_file w _ body) as [[]|e]; simpl in H.
      * exists name. congruence.
      * destruct (is_RequestException e); simpl in H; congruence.
    + destruct (is_RequestException e); simpl in H; congruence.
  - destruct (is_RequestException e); simpl in H; congruence.
Qed.

Lemma os_path_join_folder_nonempty name :
  truthy (PyStr (os_path_join folder name)) = true.
Proof.
  unfold os_path_join. destruct (PyStr.startswith "/" name) eqn:E.
  - by destruct name.
  - done.
Qed.

Lemma process_pdf_failed_download url :
  (download_pdf w url folder).2 = Ok None →
  (process_pdf w url folder).2 = Ok None.
Proof. intros H. unfold process_pdf. rewrite bind_snd, H. done. Qed.

Lemma process_pdf_failed_conversion url p e :
  (download_pdf w url folder).2 = Ok (Some p) →
  (pdf_to_base64_pngs w p).2 = Raise e →
  (process_pdf w url folder).2 = Raise e.
Proof.
  intros Hd Hr. unfold process_pdf. rewrite bind_snd, Hd.
  destruct (download_pdf_path _ _ _ Hd) as [name ->].
  rewrite os_path_join_folder_nonempty, bind_snd, Hr. done.
Qed.

(** The result of the fetch cell does not mention the schedule. *)
Lemma pdf_results_outcome urls sched :
  sched ≡ₚ seq 0 (length urls) →
  outcome (pdf_results w urls sched)
  = Some (match in_order ((λ url, (process_pdf w url folder).2) <$> urls) with
          | Ok rs => Ok (omap id rs)
          | Raise e => Raise e
          end).
Proof.
  intros Hp. unfold pdf_results. rewrite then_executor_map by done.
  unfold outcome. cbn [fmap option_fmap option_map]. f_equal.
  rewrite bind_snd. cbn [snd]. by destruct (in_order _).
Qed.

Lemma in_order_skip_none {A} (l1 l2 : list (Outcome (option A))) :
  match in_order (l1 ++ Ok None :: l2) with
  | Ok rs => Ok (omap id rs)
  | Raise e => Raise e
  end
  = match in_order (l1 ++ l2) with
    | Ok rs => Ok (omap id rs)
    | Raise e => Raise e
    end.
Proof.
  induction l1 as [|r l1 IH].
  - simpl. by destruct (in_order l2).
  - destruct r as [o|e]; [|done]. simpl.
    destruct (in_order (l1 ++ Ok None :: l2)) as [rs|e],
             (in_order (l1 ++ l2)) as [rs'|e']; try congruence.
    injection IH as IH. f_equal. cbn [omap list_omap id]. by rewrite IH.
Qed.

(** A document for which [download_pdf] answers [None] is filtered out:
    the fetch cell ends as it would have without its URL. *)
Lemma none_is_filtered_out urls1 url urls2 sched sched' :
  sched ≡ₚ seq 0 (length (urls1 ++ url :: urls2)) →
  sched' ≡ₚ seq 0 (length (urls1 ++ urls2)) →
  (download_pdf w url folder).2 = Ok None →
  outcome (pdf_results w (urls1 ++ url :: urls2) sched)
  = outcome (pdf_results w (urls1 ++ urls2) sched').
Proof.
  intros Hp Hp' Hd. rewrite !pdf_results_outcome by done. f_equal.
  rewrite !fmap_app, fmap_cons, (process_pdf_failed_download _ Hd).
  apply in_order_skip_none.
Qed.

End Fetch.

Section FetchClaims.
Variable w : World.

Lemma split_nonempty sep s : PyStr.split sep s ≠ [].
Proof.
  destruct s as [|c s]; simpl; [done|].
  destruct (Ascii.eqb c sep); [done|]. by destruct (PyStr.split sep s).
Qed.

Lemma getitem_last {A} (l : list A) (d : A) :
  l ≠ [] → getitem l (-1) = Ok (default d (last l)).
Proof.
  intros Hl. unfold getitem.
  destruct (Z.ltb_spec (-1) 0) as [_|?]; [|lia].
  assert (Hlen : (0 < length l)%nat) by (destruct l; [done | simpl; lia]).
  destruct (Z.ltb_spec (-1 + Z.of_nat (length l)) 0) as [?|_]; [lia|].
  replace (Z.to_nat (-1 + Z.of_nat (length l))) with (pred (length l)) by lia.
  rewrite <- last_lookup. destruct (last l) eqn:E; [done|].
  by apply last_None in E.
Qed.

(** A download that succeeds hands back the path of the file. *)
Lemma download_pdf_success url dir body :
  requests_get w url = Ok body →
  write_file w (downloaded_path url dir) body = Ok tt →
  download_pdf w url dir
  = ([EvGet url; EvWrite (downloaded_path url dir)],
     Ok (Some (downloaded_path url dir))).
Proof.
  intros Hg Hw. unfold download_pdf, call, lift, downloaded_path in *.
  rewrite Hg. simpl.
  rewrite (getitem_last _ EmptyString) by apply split_nonempty.
  simpl. by rewrite Hw.
Qed.

(** C5: what the fetch cell does when a downloaded document cannot be
    rasterized.  The exception of [pdf_to_base64_pngs] is caught nowhere:
    it leaves [process_pdf] and the cell, which ends with an exception
    instead of the list of the other documents. *)
Theorem failed_conversion_aborts_fetch_cell urls sched url p e :
  sched ≡ₚ seq 0 (length urls) →
  url ∈ urls →
  (download_pdf w url folder).2 = Ok (Some p) →
  (pdf_to_base64_pngs w p).2 = Raise e →
  ∃ e', outcome (pdf_results w urls sched) = Some (Raise e').
Proof.
  intros Hp Hin Hd Hr. rewrite pdf_results_outcome by done.
  assert (H : Raise e ∈ (λ url, (process_pdf w url folder).2) <$> urls).
  { apply list_elem_of_fmap. exists url. split; [|done].
    symmetry. by apply (process_pdf_failed_conversion w url p). }
  apply in_order_raise in H as (e' & -> & _). by exists e'.
Qed.

End FetchClaims.

(** * The planner *)

(** C6: a question that is empty or is not a string makes
    [generate_prompt_for_lite] raise [ValueError] with no event before it:
    nothing is requested from the model. *)
Theorem planner_rejects_bad_question (w : World) (question : PyVal) :
  question = PyStr EmptyString ∨ (∀ s, question ≠ PyStr s) →
  generate_prompt_for_lite w question
  = ([], Raise (ValueError "Question must be a non-empty string"))
  ∧ invocations (generate_prompt_for_lite w question).1 = [].
Proof.
  intros H.
  assert (Hq : negb (truthy question) || negb (isinstance_str question) = true).
  { destruct H as [->|H]; [done|].
    destruct question as [| | |s| |];
      cbn [isinstance_str negb]; rewrite ?orb_true_r; try done.
    by destruct (H s). }
  unfold generate_prompt_for_lite. by rewrite Hq.
Qed.

(** A question that is a non-empty string reaches the model exactly
    once. *)
Lemma planner_invokes_once (w : World) (q : string) :
  q ≠ EmptyString →
  invocations (generate_prompt_for_lite w (PyStr q)).1
  = [(nova_pro, lite_prompt_request q)].
Proof.
  intros Hq. unfold generate_prompt_for_lite.
  assert (String.eqb q EmptyString = false) as E by by apply String.eqb_neq.
  cbn [truthy isinstance_str negb orb format_str]. rewrite E. cbn [negb orb].
  unfold call, try_except, print, emit, ret.
  destruct (invoke_model w nova_pro (lite_prompt_request q)); done.
Qed.

(** * The parser of the synthesis answer *)

Section ParserClaims.
Import PyStr PyStrFacts.

(** The end delimiter cannot begin in the text before the start
    delimiter and run into it, nor lie inside it. *)
Lemma no_end_delimiter_before (pre F : string) :
  contains "</python>" pre = false →
  contains "</python>" F = false →
  contains "</python>" (pre +:+ "<python>" +:+ F) = false.
Proof.
  intros Hpre HF.
  change ("<python>" +:+ F) with (String "<" ("python>" +:+ F)).
  rewrite (contains_app_fresh "<" "/python>") by (reflexivity || assumption).
  simpl. exact HF.
Qed.

(** C1: on an answer with the code fragment [F] between the first
    [<python>] and the first [</python>], [extract_code] hands back the
    text before the start delimiter, trimmed, as narrative, but not [F]
    trimmed as code: the slice starts at [start + 6], two characters before
    the end of the eight-character delimiter, so the code begins with
    [n>]. *)
Theorem extract_code_fragment_is_shifted (pre F post : string) :
  contains "<python>" pre = false →
  contains "</python>" pre = false →
  contains "</python>" F = false →
  extract_code (pre +:+ "<python>" +:+ F +:+ "</python>" +:+ post)
  = (Some ("n>" +:+ rstrip F), strip pre)
  ∧ (extract_code (pre +:+ "<python>" +:+ F +:+ "</python>" +:+ post)).1
    ≠ Some (strip F).
Proof.
  intros Hstart Hpre HF.
  rewrite extract_code_delimited by auto using no_end_delimiter_before.
  split; [done|]. cbn [fst]. intros [= H].
  by apply shifted_fragment_differs in H.
Qed.

(** The instruction of the synthesis request names the tag
    [<python_code>]. *)
Lemma synthesis_text_instructs (question extracted_info : string) :
  contains "Enclose the code within <python_code> tags."
           (synthesis_text question extracted_info) = true.
Proof.
  apply contains_spec.
  exists ("Based on the following extracted information from Amazon's earnings releases, "
          +:+ nl +:+ spaces 13
          +:+ "please provide a response to the question: " +:+ question
          +:+ nl +:+ nl +:+ nl +:+ spaces 13
          +:+ "Also, please generate Python code using the matplotlib library to accompany your response. "
          +:+ nl +:+ spaces 13),
         (nl +:+ nl +:+ "Extracted Information:" +:+ nl +:+ extracted_info).
  unfold synthesis_text. by rewrite !str_app_assoc.
Qed.

(** C2: an answer that encloses its code in
    [<python_code>...</python_code>], the tags the synthesis request asks
    for, and holds neither [<python>] nor [</python>], yields no code: all
    of it, trimmed, is narrative. *)
Theorem python_code_tags_are_not_recognised (pre F post question info : string) :
  let response := pre +:+ "<python_code>" +:+ F +:+ "</python_code>" +:+ post in
  contains "<python>" response = false →
  contains "</python>" response = false →
  contains "Enclose the code within <python_code> tags."
           (synthesis_text question info) = true
  ∧ extract_code response = (None, strip response).
Proof.
  intros response H1 H2. split.
  - apply synthesis_text_instructs.
  - apply extract_code_absent. by left.
Qed.

(** C7: when the start delimiter or the end delimiter is absent,
    [extract_code] hands back no code and the whole answer, trimmed, as
    narrative; the last cell prints that narrative and executes
    nothing. *)
Theorem missing_delimiter_yields_narrative_only (w : World) (response : string) :
  contains "<python>" response = false ∨ contains "</python>" response = false →
  extract_code response = (None, strip response)
  ∧ run_extracted_code w response = ([EvPrint (strip response)], Ok tt)
  ∧ executed (run_extracted_code w response).1 = [].
Proof.
  intros H. pose proof (extract_code_absent response H) as E.
  unfold run_extracted_code. rewrite E. done.
Qed.

End ParserClaims.

(** * The configured documents *)

(** The paths of the four configured documents once downloaded. *)
Lemma configured_paths :
  (λ url, downloaded_path url folder) <$> pdf_urls
  = [ "../downloads/pdfs/Q1-2023-Amazon-Earnings-Release.pdf";
      "../downloads/pdfs/Q2-2023-Amazon-Earnings-Release.pdf";
      "../downloads/pdfs/AMZN-Q3-2023-Earnings-Release.pdf";
      "../downloads/pdfs/AMZN-Q4-2023-Earnings-Release.pdf" ].
Proof. reflexivity. Qed.

(** C4: the labels of the four configured documents.  The label is the
    second token of the file name split at [-]: [2023] for the first two
    documents, whose names start with the quarter, and the quarter for the
    last two only. *)
Theorem configured_documents_labels (info1 info2 info3 info4 : string) :
  extracted_info_loop
    (zip [info1; info2; info3; info4]
         ((λ url, downloaded_path url folder) <$> pdf_urls))
    EmptyString
  = Ok (info_block "2023" info1 +:+ info_block "2023" info2
        +:+ info_block "Q3" info3 +:+ info_block "Q4" info4).
Proof.
  rewrite configured_paths.
  rewrite (extracted_info_loop_blocks _ ["2023"; "2023"; "Q3"; "Q4"]).
  - simpl. by rewrite PyStrFacts.str_app_nil_r.
  - repeat constructor.
Qed.

(** * The statements at sample inputs *)

Lemma extract_code_fragment_is_shifted_witness :
  extract_code sample_response
  = (Some ("n>" +:+ nl +:+ "plt.show()"), "Here is the chart.")
  ∧ (extract_code sample_response).1 ≠ Some "plt.show()".
Proof.
  exact (extract_code_fragment_is_shifted
           ("Here is the chart." +:+ nl) (nl +:+ "plt.show()" +:+ nl) EmptyString
           eq_refl eq_refl eq_refl).
Defined.

Lemma python_code_tags_are_not_recognised_witness :
  extract_code ("Net sales grew. <python_code>plt.show()</python_code>")
  = (None, "Net sales grew. <python_code>plt.show()</python_code>").
Proof.
  apply (python_code_tags_are_not_recognised
           "Net sales grew. " "plt.show()" EmptyString QUESTION EmptyString);
    reflexivity.
Defined.

Lemma missing_delimiter_yields_narrative_only_witness :
  extract_code "Net sales grew. <python>plt.show() "
  = (None, "Net sales grew. <python>plt.show()")
  ∧ run_extracted_code sample_world "Net sales grew. <python>plt.show() "
    = ([EvPrint "Net sales grew. <python>plt.show()"], Ok tt)
  ∧ executed (run_extracted_code sample_world "Net sales grew. <python>plt.show() ").1
    = [].
Proof.
  apply (missing_delimiter_yields_narrative_only sample_world
           "Net sales grew. <python>plt.show() ").
  right. reflexivity.
Defined.

Lemma planner_rejects_bad_question_witness :
  generate_prompt_for_lite sample_world (PyInt 2023)
  = ([], Raise (ValueError "Question must be a non-empty string"))
  ∧ invocations (generate_prompt_for_lite sample_world (PyInt 2023)).1 = [].
Proof.
  apply (planner_rejects_bad_question sample_world (PyInt 2023)).
  right. intros s. discriminate.
Defined.

Lemma combined_context_ignores_completion_order_witness :
  outcome (extracted_info sample_world sample_docs sample_prompt [0; 1]%nat)
  = outcome (extracted_info sample_world sample_docs sample_prompt [1; 0]%nat)
  ∧ outcome (extracted_info sample_world sample_docs sample_prompt [0; 1]%nat)
    = Some (Ok (info_block "Q3" "Summary of page 1 of Q3"
                +:+ info_block "Q4" "Summary of page 1 of Q4")).
Proof.
  destruct (combined_context_ignores_completion_order sample_world sample_docs
              sample_prompt [0; 1]%nat [1; 0]%nat) as [Hsame Horder].
  - reflexivity.
  - apply perm_swap.
  - split; [exact Hsame|].
    apply (Horder ["Summary of page 1 of Q3"; "Summary of page 1 of Q4"]
                  ["Q3"; "Q4"]); repeat constructor.
Defined.

Lemma worker_requests_one_per_document_witness :
  ∃ log r,
    extracted_info sample_world sample_docs sample_prompt [1; 0]%nat
    = Some (log, r)
    ∧ invocations log
      ≡ₚ (λ d, (nova_lite, extract_info_request d.2 sample_prompt)) <$> sample_docs
    ∧ length (invocations log) = length sample_docs
    ∧ ∀ d, d ∈ sample_docs →
        images_of (extract_info_request d.2 sample_prompt) = d.2
        ∧ texts_of (extract_info_request d.2 sample_prompt) = [sample_prompt].
Proof.
  apply (worker_requests_one_per_document sample_world sample_docs
           sample_prompt [1; 0]%nat).
  apply perm_swap.
Defined.

Lemma worker_failure_aborts_aggregation_witness :
  ∃ log e',
    extracted_info sample_world sample_docs_one_empty sample_prompt [1; 0]%nat
    = Some (log, Raise e')
    ∧ printed log = []
    ∧ ∃ d', d' ∈ sample_docs_one_empty
        ∧ invoke_model sample_world nova_lite
            (extract_info_request d'.2 sample_prompt) = Raise e'.
Proof.
  apply (worker_failure_aborts_aggregation sample_world sample_docs_one_empty
           sample_prompt [1; 0]%nat ("../downloads/pdfs/empty.pdf", [])
           (OtherError "ValidationException" "No image in the request")).
  - apply perm_swap.
  - right. left.
  - reflexivity.
Defined.

Lemma failed_conversion_aborts_fetch_cell_witness :
  ∃ e', outcome (pdf_results sample_world sample_urls_one_corrupt [0; 1]%nat)
        = Some (Raise e').
Proof.
  apply (failed_conversion_aborts_fetch_cell sample_world sample_urls_one_corrupt
           [0; 1]%nat "https://example.com/reports/corrupt.pdf"
           "../downloads/pdfs/corrupt.pdf"
           (OtherError "FileDataError" "Failed to open file")).
  - reflexivity.
  - right. left.
  - reflexivity.
  - reflexivity.
Defined.

(** Runs of the cells in the sample world. *)

Example fetch_cell_run :
  pdf_results sample_world sample_urls [0; 1; 2]%nat
  = Some
      ([ EvGet "https://example.com/reports/AMZN-Q3-2023-Earnings-Release.pdf";
         EvWrite "../downloads/pdfs/AMZN-Q3-2023-Earnings-Release.pdf";
         EvOpenPdf "../downloads/pdfs/AMZN-Q3-2023-Earnings-Release.pdf";
         EvGet "https://example.com/reports/missing.pdf";
         EvPrint "Failed to download PDF from https://example.com/reports/missing.pdf: 404 Client Error: Not Found for url";
         EvGet "https://example.com/reports/AMZN-Q4-2023-Earnings-Release.pdf";
         EvWrite "../downloads/pdfs/AMZN-Q4-2023-Earnings-Release.pdf";
         EvOpenPdf "../downloads/pdfs/AMZN-Q4-2023-Earnings-Release.pdf" ],
       Ok [ ("../downloads/pdfs/AMZN-Q3-2023-Earnings-Release.pdf",
             [ "page 1 of ../downloads/pdfs/AMZN-Q3-2023-Earnings-Release.pdf";
               "page 2 of ../downloads/pdfs/AMZN-Q3-2023-Earnings-Release.pdf" ]);
            ("../downloads/pdfs/AMZN-Q4-2023-Earnings-Release.pdf",
             [ "page 1 of ../downloads/pdfs/AMZN-Q4-2023-Earnings-Release.pdf";
               "page 2 of ../downloads/pdfs/AMZN-Q4-2023-Earnings-Release.pdf" ]) ]).
Proof. vm_compute. reflexivity. Qed.

Example fetch_cell_run_corrupt :
  outcome (pdf_results sample_world sample_urls_one_corrupt [1; 0]%nat)
  = Some (Raise (OtherError "FileDataError" "Failed to open file")).
Proof. vm_compute. reflexivity. Qed.

Example worker_cell_run_configured :
  match outcome (pdf_results sample_world pdf_urls [0; 1; 2; 3]%nat) with
  | Some (Ok docs) =>
      outcome (extracted_info sample_world docs sample_prompt [3; 1; 0; 2]%nat)
  | _ => None
  end
  = Some (Ok
      (info_block "2023" "Summary of page 1 of ../downloads/pdfs/Q1-2023-Amazon-Earnings-Release.pdf"
       +:+ info_block "2023" "Summary of page 1 of ../downloads/pdfs/Q2-2023-Amazon-Earnings-Release.pdf"
       +:+ info_block "Q3" "Summary of page 1 of ../downloads/pdfs/AMZN-Q3-2023-Earnings-Release.pdf"
       +:+ info_block "Q4" "Summary of page 1 of ../downloads/pdfs/AMZN-Q4-2023-Earnings-Release.pdf")).
Proof. vm_compute. reflexivity. Qed.

Example find_sample : PyStr.find sample_response "<python>" = 19.
Proof. reflexivity. Qed.

Example basename_sample :
  os_path_basename "../downloads/pdfs/Q1-2023-Amazon-Earnings-Release.pdf"
  = "Q1-2023-Amazon-Earnings-Release.pdf".
Proof. reflexivity. Qed.

Example split_sample :
  PyStr.split "-" "Q1-2023-Amazon-Earnings-Release.pdf"
  = ["Q1"; "2023"; "Amazon"; "Earnings"; "Release.pdf"].
Proof. reflexivity. Qed.

(** * More facts about strings and paths *)

Section Paths.
Import PyStr PyStrFacts.

#[local] Arguments String.append !_ _ / : simpl nomatch.

(** A string without the separator is one token. *)
Lemma split_absent (sep : ascii) (s : string) :
  occurs sep s = false → split sep s = [s].
Proof.
  induction s as [|c s IH]; intros H; [done|].
  simpl in H. apply orb_false_iff in H as [Hc Hs].
  simpl. rewrite Hc, IH by done. done.
Qed.

(** The token before the first separator is split off. *)
Lemma split_first (sep : ascii) (a r : string) :
  occurs sep a = false →
  split sep (a +:+ String sep r) = a :: split sep r.
Proof.
  induction a as [|x a IH]; intros H.
  - simpl. by rewrite Ascii.eqb_refl.
  - simpl in H. apply orb_false_iff in H as [Hx Ha].
    simpl. rewrite Hx, IH by done. done.
Qed.

(** The last token is the text after the last separator. *)
Lemma split_last (sep : ascii) (a name : string) :
  occurs sep name = false →
  ∃ ws, split sep (a +:+ String sep name) = ws ++ [name] ∧ ws ≠ [].
Proof.
  intros Hn. induction a as [|x a (ws & IH & Hws)].
  - exists [EmptyString]. simpl.
    by rewrite Ascii.eqb_refl, split_absent.
  - simpl. rewrite IH. destruct (Ascii.eqb x sep).
    + by exists (EmptyString :: ws).
    + destruct ws as [|w ws]; [done|]. by exists (String x w :: ws).
Qed.

Lemma rfind_char_absent (c : ascii) (s : string) (i : Z) :
  occurs c s = false → rfind_from (String c EmptyString) s i = -1.
Proof.
  revert i. induction s as [|x s IH]; intros i H; [done|].
  simpl in H. apply orb_false_iff in H as [Hx Hs].
  cbn [rfind_from]. rewrite IH by done. simpl.
  rewrite Ascii.eqb_sym, Hx. done.
Qed.

(** [rfind] stops at the last occurrence of a character. *)
Lemma rfind_char_last (c : ascii) (a name : string) (i : Z) :
  0 <= i → occurs c name = false →
  rfind_from (String c EmptyString) (a +:+ String c name) i = i + len a.
Proof.
  intros Hi Hn. revert i Hi. induction a as [|x a IH]; intros i Hi.
  - simpl. rewrite rfind_char_absent by done. simpl.
    rewrite Ascii.eqb_refl. unfold len. simpl. lia.
  - change (String x a +:+ String c name) with (String x (a +:+ String c name)).
    cbn [rfind_from]. rewrite IH by lia.
    pose proof (len_nonneg a).
    destruct (Z.eqb_spec (i + 1 + len a) (-1)); [lia|].
    unfold len. simpl String.length. lia.
Qed.

(** [basename] keeps what follows the last slash. *)
Lemma os_path_basename_app (a name : string) :
  occurs "/" name = false →
  os_path_basename (a +:+ "/" +:+ name) = name.
Proof.
  intros Hn. unfold os_path_basename, rfind.
  change (a +:+ "/" +:+ name) with (a +:+ String "/" name).
  rewrite rfind_char_last by (done || lia).
  unfold slice, clip. rewrite len_app.
  pose proof (len_nonneg a). pose proof (len_nonneg name).
  destruct (Z.ltb_spec (0 + len a + 1) 0); [lia|].
  assert (len (String "/" name) = 1 + len name) as Hl
    by (unfold len; simpl String.length; lia).
  rewrite Z.min_l by lia.
  replace (Z.to_nat (0 + len a + 1)) with (String.length a + 1)%nat
    by (unfold len; lia).
  rewrite <- drop_drop, drop_app. simpl drop.
  replace (Z.to_nat (len a + len (String "/" name) - (0 + len a + 1)))
    with (String.length name) by (unfold len in *; lia).
  rewrite <- (str_app_nil_r name) at 2. apply take_app.
Qed.

Lemma os_path_basename_plain (name : string) :
  occurs "/" name = false → os_path_basename name = name.
Proof.
  intros Hn. unfold os_path_basename, rfind.
  rewrite rfind_char_absent by done. change (-1 + 1) with 0.
  unfold slice, clip. change (0 <? 0) with false. cbv iota.
  pose proof (len_nonneg name). rewrite Z.min_l by lia.
  change (Z.to_nat 0) with 0%nat. cbn [drop].
  replace (Z.to_nat (len name - 0)) with (String.length name)
    by (unfold len; lia).
  rewrite <- (str_app_nil_r name) at 2. apply take_app.
Qed.

(** Stripping twice is stripping once. *)
Lemma lstrip_idemp (s : string) : lstrip (lstrip s) = lstrip s.
Proof.
  induction s as [|c s IH]; [done|].
  simpl. destruct (isspace c) eqn:E; [done|]. simpl. by rewrite E.
Qed.

Lemma rstrip_idemp (s : string) : rstrip (rstrip s) = rstrip s.
Proof.
  induction s as [|c s IH]; [done|].
  cbn [rstrip]. destruct (rstrip s) as [|y r] eqn:E.
  - destruct (isspace c) eqn:Ec; [done|]. simpl. by rewrite Ec.
  - cbn [rstrip] in *. by rewrite IH.
Qed.

Lemma lstrip_rstrip (s : string) : lstrip (rstrip s) = rstrip (lstrip s).
Proof.
  induction s as [|c s IH]; [done|].
  destruct (isspace c) eqn:Ec.
  - cbn [lstrip]. rewrite Ec, <- IH. cbn [rstrip].
    destruct (rstrip s) as [|y r]; [by rewrite Ec|].
    cbn [lstrip]. by rewrite Ec.
  - rewrite (lstrip_nonspace c s Ec), rstrip_nonspace by done.
    by apply lstrip_nonspace.
Qed.

Lemma strip_idemp (s : string) : strip (strip s) = strip s.
Proof.
  unfold strip.
  by rewrite lstrip_rstrip, lstrip_idemp, rstrip_idemp.
Qed.

(** An empty or reversed range is an empty slice. *)
Lemma slice_empty (s : string) (lo hi : Z) :
  0 <= hi <= lo → slice s (Some lo) (Some hi) = EmptyString.
Proof.
  intros H. unfold slice, clip. pose proof (len_nonneg s).
  destruct (Z.ltb_spec lo 0); [lia|]. destruct (Z.ltb_spec hi 0); [lia|].
  replace (Z.to_nat (Z.min hi (len s) - Z.min lo (len s))) with 0%nat by lia.
  done.
Qed.

End Paths.

(** * More about the fetch stage *)

Section FetchMore.
Variable w : World.
Implicit Types (urls : list string) (sched : list nat).

Lemma encode_pages_ok (pngs acc : list string) :
  encode_pages (Ok <$> pngs) acc = Ok (acc ++ pngs).
Proof.
  revert acc. induction pngs as [|png pngs IH]; intros acc.
  - by rewrite app_nil_r.
  - rewrite fmap_cons. cbn [encode_pages]. rewrite IH, <- app_assoc. done.
Qed.

Lemma encode_pages_raise (pngs acc : list string) e rest :
  encode_pages ((Ok <$> pngs) ++ Raise e :: rest) acc = Raise e.
Proof.
  revert acc. induction pngs as [|png pngs IH]; intros acc; [done|].
  rewrite fmap_cons. cbn [app encode_pages]. apply IH.
Qed.

(** X1: [pdf_to_base64_pngs] hands back one image per page, in page
    order. *)
Theorem pdf_to_base64_pngs_page_order (pdf_path : string) (pngs : list string) :
  fitz_pages w pdf_path = Ok (Ok <$> pngs) →
  pdf_to_base64_pngs w pdf_path = ([EvOpenPdf pdf_path], Ok pngs).
Proof.
  intros H. unfold pdf_to_base64_pngs, call, lift. rewrite H. simpl.
  by rewrite encode_pages_ok.
Qed.

(** X2: when a page cannot be converted, [pdf_to_base64_pngs] raises the
    exception of the first such page; the images of the pages before it are
    lost and the pages after it are not looked at. *)
Theorem pdf_to_base64_pngs_first_failure (pdf_path : string)
    (pngs : list string) (e : Exn) (rest : list (Outcome string)) :
  fitz_pages w pdf_path = Ok ((Ok <$> pngs) ++ Raise e :: rest) →
  pdf_to_base64_pngs w pdf_path = ([EvOpenPdf pdf_path], Raise e).
Proof.
  intros H. unfold pdf_to_base64_pngs, call, lift. rewrite H. simpl.
  by rewrite encode_pages_raise.
Qed.

Lemma startswith_slash_absent (name : string) :
  PyStr.occurs "/" name = false → PyStr.startswith "/" name = false.
Proof.
  destruct name as [|c name]; [done|].
  cbn [PyStr.occurs PyStr.startswith]. intros H.
  apply orb_false_iff in H as [Hc _]. by rewrite Ascii.eqb_sym, Hc.
Qed.

Lemma last_component (a name : string) :
  PyStr.occurs "/" name = false →
  getitem (PyStr.split "/" (a +:+ "/" +:+ name)) (-1) = Ok name.
Proof.
  intros Hn. rewrite (getitem_last _ EmptyString) by apply split_nonempty.
  change (a +:+ "/" +:+ name) with (a +:+ String "/" name).
  destruct (split_last "/" a name Hn) as (ws & -> & _).
  by rewrite last_snoc.
Qed.

(** X3: a download that succeeds writes the document into the folder under
    the last component of its URL, the text after the last slash, and hands
    that path back. *)
Theorem download_pdf_keeps_last_component (a name dir body : string) :
  PyStr.occurs "/" name = false →
  dir ≠ EmptyString → PyStr.endswith "/" dir = false →
  requests_get w (a +:+ "/" +:+ name) = Ok body →
  write_file w (dir +:+ "/" +:+ name) body = Ok tt →
  download_pdf w (a +:+ "/" +:+ name) dir
  = ([EvGet (a +:+ "/" +:+ name); EvWrite (dir +:+ "/" +:+ name)],
     Ok (Some (dir +:+ "/" +:+ name))).
Proof.
  intros Hn Hd Hs Hg Hw. unfold download_pdf, call, lift.
  rewrite Hg. cbn [bind]. rewrite last_component by done. cbn [bind].
  assert (os_path_join dir name = dir +:+ "/" +:+ name) as ->.
  { unfold os_path_join. rewrite startswith_slash_absent by done.
    apply String.eqb_neq in Hd. by rewrite Hd, Hs. }
  by rewrite Hw.
Qed.

(** X4: two URLs with the same last component are written to the same
    file: the second download overwrites the first. *)
Theorem same_last_component_same_file (a1 a2 name body1 body2 : string) :
  PyStr.occurs "/" name = false →
  requests_get w (a1 +:+ "/" +:+ name) = Ok body1 →
  requests_get w (a2 +:+ "/" +:+ name) = Ok body2 →
  write_file w (folder +:+ "/" +:+ name) body1 = Ok tt →
  write_file w (folder +:+ "/" +:+ name) body2 = Ok tt →
  (download_pdf w (a1 +:+ "/" +:+ name) folder).2
  = (download_pdf w (a2 +:+ "/" +:+ name) folder).2
  ∧ EvWrite (folder +:+ "/" +:+ name)
      ∈ (download_pdf w (a1 +:+ "/" +:+ name) folder).1
  ∧ EvWrite (folder +:+ "/" +:+ name)
      ∈ (download_pdf w (a2 +:+ "/" +:+ name) folder).1.
Proof.
  intros Hn Hg1 Hg2 Hw1 Hw2.
  rewrite (download_pdf_keeps_last_component a1 name folder body1) by done.
  rewrite (download_pdf_keeps_last_component a2 name folder body2) by done.
  cbn [fst snd]. split; [done|]. split; apply list_elem_of_In; simpl; auto.
Qed.

(** A path handed back by [download_pdf] is the folder joined with the
    last component of the URL. *)
Lemma download_pdf_some url dir p :
  (download_pdf w url dir).2 = Ok (Some p) → p = downloaded_path url dir.
Proof.
  unfold download_pdf, call, lift, downloaded_path. intros H.
  destruct (requests_get w url) as [body|e]; simpl in H.
  - rewrite (getitem_last _ EmptyString) in H by apply split_nonempty.
    simpl in H.
    destruct (write_file w _ body) as [[]|e]; simpl in H.
    + congruence.
    + destruct (is_RequestException e); simpl in H; congruence.
  - destruct (is_RequestException e); simpl in H; congruence.
Qed.

Lemma process_pdf_some url p pngs :
  (process_pdf w url folder).2 = Ok (Some (p, pngs)) →
  p = downloaded_path url folder.
Proof.
  unfold process_pdf. rewrite bind_snd. intros H.
  destruct (download_pdf w url folder).2 as [[q|]|e] eqn:E; [|done..].
  apply download_pdf_some in E as ->.
  destruct (truthy _); [|done]. rewrite bind_snd in H.
  destruct (pdf_to_base64_pngs w _).2; simpl in H; congruence.
Qed.

(** X5: an exception that is not a [RequestException], raised by the
    request or while the file is written, is not caught by [download_pdf]:
    it ends the fetch cell, and no document reaches the next stage. *)
Theorem other_exception_aborts_fetch_cell urls sched url e :
  sched ≡ₚ seq 0 (length urls) →
  url ∈ urls →
  is_RequestException e = false →
  (requests_get w url = Raise e
   ∨ ∃ body, requests_get w url = Ok body
             ∧ write_file w (downloaded_path url folder) body = Raise e) →
  (download_pdf w url folder).2 = Raise e
  ∧ ∃ e', outcome (pdf_results w urls sched) = Some (Raise e').
Proof.
  intros Hp Hin He H.
  assert (Hd : (download_pdf w url folder).2 = Raise e).
  { destruct H as [H|(body & Hg & Hw)].
    - by rewrite (download_pdf_other_failure w url folder e).
    - unfold download_pdf, call, lift, downloaded_path in *. rewrite Hg.
      cbn [bind]. rewrite (getitem_last _ EmptyString) by apply split_nonempty.
      cbn [bind]. rewrite Hw. simpl. by rewrite He. }
  split; [done|]. rewrite pdf_results_outcome by done.
  assert (Hr : Raise e ∈ (λ url, (process_pdf w url folder).2) <$> urls).
  { apply list_elem_of_fmap. exists url. split; [|done].
    unfold process_pdf. by rewrite bind_snd, Hd. }
  apply in_order_raise in Hr as (e' & -> & _). by exists e'.
Qed.

Lemma in_order_all_none {A} (l : list (Outcome (option A))) :
  Forall (λ r, r = Ok None) l →
  match in_order l with
  | Ok rs => Ok (omap id rs)
  | Raise e => Raise e
  end = Ok [].
Proof.
  induction 1 as [|r l -> _ IH]; [done|].
  cbn [in_order]. destruct (in_order l) as [rs|e]; [|done].
  cbn [omap list_omap id]. done.
Qed.

Lemma printed_app l1 l2 : printed (l1 ++ l2) = printed l1 ++ printed l2.
Proof. apply omap_app. Qed.

(** X6: when every download fails with a [RequestException], the fetch
    cell still ends normally, with one report per URL and an empty list of
    documents; the worker cell then makes no model request and its combined
    context is the empty string. *)
Theorem all_downloads_fail_empty_context urls sched lite_prompt :
  sched ≡ₚ seq 0 (length urls) →
  (∀ url, url ∈ urls → ∃ msg, requests_get w url = Raise (RequestException msg)) →
  (∃ log, pdf_results w urls sched = Some (log, Ok [])
          ∧ length (printed log) = length urls)
  ∧ extracted_info w [] lite_prompt [] = Some ([EvPrint EmptyString], Ok EmptyString).
Proof.
  intros Hp Hall. split; [|done].
  assert (Hfst : ∀ url, url ∈ urls →
            ∃ s, (process_pdf w url folder).1 = [EvGet url; EvPrint s]).
  { intros url Hin. destruct (Hall url Hin) as [msg Hg].
    eexists. unfold process_pdf.
    by rewrite (download_pdf_request_failure w url folder msg Hg). }
  assert (Hsnd : Forall (λ r, r = Ok None)
                   ((λ url, (process_pdf w url folder).2) <$> urls)).
  { apply Forall_fmap, Forall_forall. intros url Hin.
    destruct (Hall url Hin) as [msg Hg]. simpl.
    apply process_pdf_failed_download.
    by rewrite (download_pdf_request_failure w url folder msg Hg). }
  unfold pdf_results. rewrite then_executor_map by done.
  set (m := bind _ _). exists m.1. split.
  - destruct m as [l r] eqn:E. f_equal. f_equal.
    change r with (l, r).2. rewrite <- E. subst m. rewrite bind_snd. cbn [snd].
    pose proof (in_order_all_none _ Hsnd) as Hn.
    destruct (in_order _) as [rs|e]; [|done]. by injection Hn as ->.
  - subst m. rewrite bind_fst. cbn [fst snd].
    assert (match in_order ((λ x, (process_pdf w x folder).2) <$> urls) with
            | Ok a => (ret (omap id a) : M _).1
            | Raise _ => []
            end = []) as -> by by destruct (in_order _).
    rewrite app_nil_r.
    assert (Hlen : length (printed
               (urls ≫= (λ url, (process_pdf w url folder).1))) = length urls).
    { clear Hp Hall Hsnd. induction urls as [|url urls' IH]; [done|].
      rewrite bind_cons, printed_app, length_app.
      rewrite IH by (intros u Hu; apply Hfst; by right).
      destruct (Hfst url) as [s ->]; [by left | done]. }
    rewrite <- Hlen. apply Permutation_length.
    unfold printed. by rewrite (bind_lookup_Permutation _ urls sched Hp).
Qed.

(** X7: the documents of the fetch cell are in the order of their URLs,
    each under the path of its own download: their paths are a subsequence of
    the paths of the URLs. *)
Theorem pdf_results_keep_input_order urls sched docs :
  sched ≡ₚ seq 0 (length urls) →
  outcome (pdf_results w urls sched) = Some (Ok docs) →
  docs.*1 `sublist_of` (λ url, downloaded_path url folder) <$> urls.
Proof.
  intros Hp. rewrite pdf_results_outcome by done. intros [= H]. clear Hp.
  revert docs H. induction urls as [|url urls IH]; intros docs H.
  - simpl in H. by injection H as <-.
  - rewrite fmap_cons in H. cbn [in_order] in H.
    destruct (process_pdf w url folder).2 as [r|e] eqn:E; [|done].
    destruct (in_order _) as [rs|e]; [|done].
    injection H as <-. specialize (IH (omap id rs) eq_refl).
    rewrite fmap_cons. destruct r as [[p pngs]|]; cbn [omap list_omap id].
    + apply process_pdf_some in E as ->. rewrite fmap_cons. cbn [fst].
      by apply sublist_skip.
    + by apply sublist_cons.
Qed.

End FetchMore.

(** * Isolation of failed downloads *)

Section FetchIsolation.
Variable w : World.
Implicit Types (urls : list string) (sched : list nat).

Lemma download_pdf_fails url msg :
  download_fails w url msg →
  (download_pdf w url folder).2 = Ok None
  ∧ printed (download_pdf w url folder).1
    = ["Failed to download PDF from " +:+ url +:+ ": " +:+ msg].
Proof.
  intros [H|(body & Hg & Hw)].
  - by rewrite (download_pdf_request_failure w url folder msg H).
  - unfold download_pdf, call, lift, downloaded_path in *. rewrite Hg.
    cbn [bind]. rewrite (getitem_last _ EmptyString) by apply split_nonempty.
    cbn [bind]. rewrite Hw. done.
Qed.

Lemma process_pdf_fetched url pngs :
  fetched w url pngs →
  (process_pdf w url folder).2 = Ok (Some (downloaded_path url folder, pngs)).
Proof.
  intros (body & Hg & Hw & Hp). unfold process_pdf.
  rewrite (download_pdf_success w url folder body Hg Hw). cbn [bind ret].
  unfold downloaded_path at 1. rewrite os_path_join_folder_nonempty.
  fold (downloaded_path url folder).
  unfold pdf_to_base64_pngs, call, lift. rewrite Hp. cbn [bind].
  rewrite encode_pages_ok. done.
Qed.

(** C9, amended: a download that fails with a [RequestException], raised
    by the request or while the answer is written, is isolated.  When every
    URL is either fetched or fails in that way, the fetch cell ends normally
    with exactly the fetched documents, each under its local path with its
    pages, in input order; every failed download is reported by
    [download_pdf], answered with [None], and absent from the result. *)
Theorem failed_download_is_isolated urls sched
    (rs : list (option (list string))) :
  sched ≡ₚ seq 0 (length urls) →
  Forall2 (λ url r, match r with
                    | Some pngs => fetched w url pngs
                    | None => ∃ msg, download_fails w url msg
                    end) urls rs →
  outcome (pdf_results w urls sched) = Some (Ok (kept_docs urls rs))
  ∧ ∀ url msg, url ∈ urls → download_fails w url msg →
      (download_pdf w url folder).2 = Ok None
      ∧ printed (download_pdf w url folder).1
        = ["Failed to download PDF from " +:+ url +:+ ": " +:+ msg].
Proof.
  intros Hp H. split; [|intros url msg _; apply download_pdf_fails].
  rewrite pdf_results_outcome by done. f_equal. clear Hp.
  assert (Hl : (λ url, (process_pdf w url folder).2) <$> urls
               = Ok <$> zip_with (λ url r,
                          (λ pngs, (downloaded_path url folder, pngs)) <$> r)
                        urls rs).
  { induction H as [|url r urls rs Hr _ IH]; [done|].
    rewrite fmap_cons. cbn [zip_with]. rewrite fmap_cons, IH. f_equal.
    destruct r as [pngs|].
    - by apply process_pdf_fetched.
    - destruct Hr as [msg Hr]. apply process_pdf_failed_download.
      by apply (download_pdf_fails url msg). }
  rewrite Hl, in_order_ok. f_equal. unfold kept_docs. clear.
  revert rs. induction urls as [|url urls IH]; intros [|r rs]; try done.
  cbn [zip zip_with omap list_omap]. rewrite IH. by destruct r.
Qed.

End FetchIsolation.

(** * More about the worker and aggregator stage *)

Section WorkerMore.
Variable w : World.
Implicit Types (docs : list (string * list string)) (sched : list nat).

(** The label of a file name: its second token when split at hyphens. *)
Lemma label_second_token (a b tail : string) :
  PyStr.occurs "-" a = false → PyStr.occurs "-" b = false →
  tail = EmptyString ∨ PyStr.startswith "-" tail = true →
  getitem (PyStr.split "-" (a +:+ "-" +:+ b +:+ tail)) 1 = Ok b.
Proof.
  intros Ha Hb Ht.
  change (a +:+ "-" +:+ b +:+ tail) with (a +:+ String "-" (b +:+ tail)).
  rewrite split_first by done.
  destruct Ht as [->|Ht].
  - by rewrite PyStrFacts.str_app_nil_r, split_absent.
  - apply PyStrFacts.startswith_spec in Ht as [t ->].
    change (b +:+ "-" +:+ t) with (b +:+ String "-" t).
    by rewrite split_first.
Qed.

(** X8: the label of a document is the second hyphen-separated token of
    its file name, whatever the directory it lies in: for a file named
    [a-b] or [a-b-...], the block is labeled [b]. *)
Theorem label_is_second_token_of_file_name
    (dir a b tail info acc : string) :
  PyStr.occurs "/" (a +:+ "-" +:+ b +:+ tail) = false →
  PyStr.occurs "-" a = false → PyStr.occurs "-" b = false →
  tail = EmptyString ∨ PyStr.startswith "-" tail = true →
  extracted_info_loop [(info, dir +:+ "/" +:+ a +:+ "-" +:+ b +:+ tail)] acc
  = Ok (acc +:+ info_block b info).
Proof.
  intros Hs Ha Hb Ht. cbn [extracted_info_loop].
  rewrite os_path_basename_app by done.
  rewrite label_second_token by done.
  unfold info_block. by rewrite ?PyStrFacts.str_app_assoc.
Qed.

Lemma getitem_raise {A} (l : list A) (i : Z) (e : Exn) :
  getitem l i = Raise e → e = IndexError "list index out of range".
Proof.
  unfold getitem. destruct (_ <? 0); [congruence|].
  destruct (l !! _); congruence.
Qed.

Lemma extracted_info_loop_raise (l : list (string * string)) (acc : string) :
  Exists (λ x, PyStr.occurs "-" (os_path_basename x.2) = false) l →
  extracted_info_loop l acc = Raise (IndexError "list index out of range").
Proof.
  intros H. revert acc. induction H as [[info p] l Hx|[info p] l _ IH]; intros acc.
  - cbn [extracted_info_loop]. simpl in Hx. by rewrite split_absent.
  - cbn [extracted_info_loop].
    destruct (getitem _ 1) as [q|e] eqn:E; [apply IH|].
    by apply getitem_raise in E as ->.
Qed.

(** X9: a document whose file name has no hyphen has no label.  Once all
    the worker calls have answered, the aggregation raises [IndexError]: the
    answers are lost and no combined context is printed. *)
Theorem file_name_without_hyphen_aborts docs lite_prompt sched infos d :
  sched ≡ₚ seq 0 (length docs) →
  Forall2 (λ d info,
             invoke_model w nova_lite (extract_info_request d.2 lite_prompt)
             = Ok info) docs infos →
  d ∈ docs → PyStr.occurs "-" (os_path_basename d.1) = false →
  ∃ log,
    extracted_info w docs lite_prompt sched
    = Some (log, Raise (IndexError "list index out of range"))
    ∧ length (invocations log) = length docs
    ∧ printed log = [].
Proof.
  intros Hp Hinfo Hd Hname. rewrite extracted_info_eq by done.
  assert (Hl : worker_result w lite_prompt <$> docs = Ok <$> zip infos docs.*1).
  { clear Hp Hd. induction Hinfo as [|d' info docs infos Hd' _ IH]; [done|].
    rewrite !fmap_cons. cbn [zip zip_with]. rewrite fmap_cons, IH.
    f_equal. unfold worker_result. by rewrite Hd'. }
  rewrite Hl, in_order_ok. cbn [bind]. rewrite aggregate_eq.
  rewrite extracted_info_loop_raise.
  - eexists. split; [done|]. rewrite app_nil_r. split.
    + unfold invocations.
      rewrite (bind_lookup_Permutation _ docs sched Hp).
      fold (invocations
              (docs ≫= (λ d, [EvInvoke nova_lite
                                (extract_info_request d.2 lite_prompt)]))).
      by rewrite invocations_requests, length_fmap.
    + clear. induction sched as [|i sched IH]; [done|].
      rewrite bind_cons. unfold printed in *. rewrite omap_app, IH, app_nil_r.
      by destruct (docs !! i).
  - apply Exists_exists. apply list_elem_of_lookup in Hd as [i Hi].
    apply Forall2_length in Hinfo.
    destruct (lookup_lt_is_Some_2 infos i) as [info Hinfo'].
    { rewrite <- Hinfo. by eapply lookup_lt_Some. }
    exists (info, d.1). split; [|done].
    apply list_elem_of_lookup. exists i.
    apply lookup_zip_with_Some. exists info, d.1.
    split; [done|]. split; [done|]. by rewrite list_lookup_fmap, Hi.
Qed.

(** X10: the answers are put between the tags as they are, without
    escaping: an answer that holds the closing and opening tags yields the
    same combined context as two documents would. *)
Theorem blocks_can_be_forged (info1 info2 p1 p2 q1 q2 acc : string) :
  getitem (PyStr.split "-" (os_path_basename p1)) 1 = Ok q1 →
  getitem (PyStr.split "-" (os_path_basename p2)) 1 = Ok q2 →
  extracted_info_loop
    [(info1 +:+ "</info>" +:+ nl +:+ "<info quarter=" +:+ dquote +:+ q2
      +:+ dquote +:+ ">" +:+ info2, p1)] acc
  = extracted_info_loop [(info1, p1); (info2, p2)] acc.
Proof.
  intros H1 H2. cbn [extracted_info_loop]. rewrite H1, H2.
  f_equal. by rewrite !PyStrFacts.str_app_assoc.
Qed.

End WorkerMore.

(** * More about the planner *)

Section PlannerMore.
Variable w : World.

(** X11: for a question that is a non-empty string,
    [generate_prompt_for_lite] makes exactly one request, to the strong
    model, and never raises: it hands back the model's text, or [None] after
    a report when the call raised. *)
Theorem planner_catches_model_failure (q : string) :
  q ≠ EmptyString →
  (generate_prompt_for_lite w (PyStr q)).2
  = Ok (match invoke_model w nova_pro (lite_prompt_request q) with
        | Ok text => Some text
        | Raise _ => None
        end)
  ∧ invocations (generate_prompt_for_lite w (PyStr q)).1
    = [(nova_pro, lite_prompt_request q)]
  ∧ ∀ e, invoke_model w nova_pro (lite_prompt_request q) = Raise e →
      printed (generate_prompt_for_lite w (PyStr q)).1
      = ["Error generating prompt: " +:+ exn_str e].
Proof.
  intros Hq. unfold generate_prompt_for_lite.
  assert (String.eqb q EmptyString = false) as E by by apply String.eqb_neq.
  cbn [truthy isinstance_str negb orb format_str]. rewrite E. cbn [negb orb].
  unfold call, try_except, print, emit, ret.
  destruct (invoke_model w nova_pro (lite_prompt_request q)) as [text|e0].
  - split; [done|]. split; [done|]. intros e [=].
  - split; [done|]. split; [done|]. by intros e [= ->].
Qed.

(** X12: the planner cell goes on only with a non-empty prompt, the text
    the model answered; when the call raised or the answer is empty it prints
    a message and exits with status 1. *)
Theorem planner_cell_continues_with_prompt (q : string) :
  q ≠ EmptyString →
  (lite_prompt_cell w (PyStr q)).2
  = Ok (match invoke_model w nova_pro (lite_prompt_request q) with
        | Ok text => if String.eqb text EmptyString then Exit 1 else Continue text
        | Raise _ => Exit 1
        end)
  ∧ ∀ p, (lite_prompt_cell w (PyStr q)).2 = Ok (Continue p) → p ≠ EmptyString.
Proof.
  intros Hq.
  assert (H : (lite_prompt_cell w (PyStr q)).2
    = Ok (match invoke_model w nova_pro (lite_prompt_request q) with
          | Ok text => if String.eqb text EmptyString then Exit 1 else Continue text
          | Raise _ => Exit 1
          end)).
  { unfold lite_prompt_cell. rewrite bind_snd.
    destruct (planner_catches_model_failure q Hq) as (-> & _).
    destruct (invoke_model w nova_pro (lite_prompt_request q)) as [text|e];
      [|done].
    cbn [truthy]. by destruct (String.eqb text EmptyString). }
  split; [done|]. intros p. rewrite H.
  destruct (invoke_model w nova_pro (lite_prompt_request q)) as [text|e];
    [|done].
  destruct (String.eqb_spec text EmptyString); [done|]. by intros [= <-].
Qed.

End PlannerMore.

(** * More about the parser and the last cell *)

Section ParserMore.
Import PyStr PyStrFacts.

#[local] Arguments String.append !_ _ / : simpl nomatch.

(** X13: whatever follows the end delimiter is dropped: it is neither in
    the code nor in the narrative. *)
Theorem extract_code_drops_text_after_end (pre F post : string) :
  contains "<python>" pre = false →
  contains "</python>" pre = false →
  contains "</python>" F = false →
  extract_code (pre +:+ "<python>" +:+ F +:+ "</python>" +:+ post)
  = extract_code (pre +:+ "<python>" +:+ F +:+ "</python>").
Proof.
  intros Hs Hp HF.
  rewrite extract_code_delimited by auto using no_end_delimiter_before.
  rewrite <- (str_app_nil_r "</python>").
  by rewrite extract_code_delimited by auto using no_end_delimiter_before.
Qed.

Lemma no_start_delimiter_before (a b : string) :
  contains "<python>" a = false →
  contains "<python>" b = false →
  contains "<python>" (a +:+ "</python>" +:+ b) = false.
Proof.
  intros Ha Hb.
  change ("</python>" +:+ b) with (String "<" ("/python>" +:+ b)).
  rewrite (contains_app_fresh "<" "python>") by (reflexivity || assumption).
  simpl. exact Hb.
Qed.

(** X14: when the first end delimiter comes before the first start
    delimiter, the extracted code is the empty string and the narrative is
    the trimmed text before the start delimiter, end delimiter included; the
    last cell then executes nothing. *)
Theorem extract_code_reversed_delimiters (w : World) (a b c : string) :
  contains "</python>" a = false →
  contains "<python>" a = false →
  contains "<python>" b = false →
  let response := a +:+ "</python>" +:+ b +:+ "<python>" +:+ c in
  extract_code response
  = (Some EmptyString, strip (a +:+ "</python>" +:+ b))
  ∧ executed (run_extracted_code w response).1 = [].
Proof.
  intros Hea Hsa Hsb response.
  assert (E : extract_code response
              = (Some EmptyString, strip (a +:+ "</python>" +:+ b))).
  { subst response. unfold extract_code, find.
    rewrite (find_from_first "<" "/python>" a (b +:+ "<python>" +:+ c) 0)
      by (reflexivity || assumption).
    replace (a +:+ "</python>" +:+ b +:+ "<python>" +:+ c)
      with ((a +:+ "</python>" +:+ b) +:+ "<python>" +:+ c)
      by now rewrite !str_app_assoc.
    rewrite (find_from_first "<" "python>" (a +:+ "</python>" +:+ b) c 0)
      by (reflexivity || auto using no_start_delimiter_before).
    pose proof (len_nonneg a) as Ha.
    pose proof (len_nonneg (a +:+ "</python>" +:+ b)) as Hab.
    assert (len a <= len (a +:+ "</python>" +:+ b)).
    { rewrite len_app. pose proof (len_nonneg ("</python>" +:+ b)). lia. }
    destruct (Z.eqb_spec (0 + len (a +:+ "</python>" +:+ b)) (-1)); [lia|].
    destruct (Z.eqb_spec (0 + len a) (-1)); [lia|].
    cbn [negb andb]. f_equal.
    - by rewrite slice_empty by lia.
    - f_equal. replace (0 + len (a +:+ "</python>" +:+ b))
        with (len (a +:+ "</python>" +:+ b)) by lia.
      apply slice_prefix. }
  split; [done|]. unfold run_extracted_code. by rewrite E.
Qed.

(** X15: both parts handed back by [extract_code] are trimmed: trimming
    them again changes nothing. *)
Theorem extract_code_parts_are_trimmed (response : string) :
  strip (extract_code response).2 = (extract_code response).2
  ∧ ∀ code, (extract_code response).1 = Some code → strip code = code.
Proof.
  unfold extract_code. destruct (_ && _); cbn [fst snd].
  - split; [apply strip_idemp|]. intros code [= <-]. apply strip_idemp.
  - split; [apply strip_idemp | done].
Qed.


End ParserMore.

(** * The image-generation notebook *)

Section ImageGenerationFacts.
Context {Image A : Type}.
Variable cw : CanvasWorld Image A.
Variable text : string.
Variable body_of : A → ImageRequest.
Variable path_of : A → string.
Variable title_prefix : string.

Lemma cbind_fst {B C} (m : @CM Image A B) (k : B → @CM Image A C) :
  (cbind m k).1
  = m.1 ++ match m.2 with Ok b => (k b).1 | Raise _ => [] end.
Proof.
  destruct m as [l [b|e]]; simpl; [by destruct (k b) | by rewrite app_nil_r].
Qed.

Lemma cbind_snd {B C} (m : @CM Image A B) (k : B → @CM Image A C) :
  (cbind m k).2 = match m.2 with Ok b => (k b).2 | Raise e => Raise e end.
Proof. destruct m as [l [b|e]]; simpl; [by destruct (k b) | done]. Qed.

Lemma generate_one_answered index n x img :
  answered cw body_of path_of x img →
  (generate_one cw body_of path_of index n x).2 = Ok img
  ∧ canvas_invocations (generate_one cw body_of path_of index n x).1
    = [(image_generation_model_id, body_of x)]
  ∧ saved_paths (generate_one cw body_of path_of index n x).1 = [path_of x]
  ∧ plots (generate_one cw body_of path_of index n x).1 = [].
Proof.
  intros (b0 & bs & imgs & Hi & Hs & Hd). unfold generate_one.
  rewrite Hi. cbn [cbind first_image].
  change (getitem (b0 :: bs) 0) with (Ok b0 : Outcome string).
  cbn iota. rewrite Hs. cbn iota. cbn [default id]. rewrite Hd. done.
Qed.

Lemma generate_one_unanswered index n x e :
  unanswered cw body_of x e →
  (generate_one cw body_of path_of index n x).2 = Raise e
  ∧ canvas_invocations (generate_one cw body_of path_of index n x).1
    = [(image_generation_model_id, body_of x)]
  ∧ saved_paths (generate_one cw body_of path_of index n x).1 = []
  ∧ plots (generate_one cw body_of path_of index n x).1 = [].
Proof.
  unfold generate_one.
  intros [H|[[H ->]|[H ->]]]; rewrite H; done.
Qed.

Lemma canvas_invocations_app (l1 l2 : list (CanvasEvent Image A)) :
  canvas_invocations (l1 ++ l2) = canvas_invocations l1 ++ canvas_invocations l2.
Proof. apply omap_app. Qed.

Lemma saved_paths_app (l1 l2 : list (CanvasEvent Image A)) :
  saved_paths (l1 ++ l2) = saved_paths l1 ++ saved_paths l2.
Proof. apply omap_app. Qed.

Lemma plots_app (l1 l2 : list (CanvasEvent Image A)) :
  plots (l1 ++ l2) = plots l1 ++ plots l2.
Proof. apply omap_app. Qed.

(** The loop over values that are all answered, followed by [rest]. *)
Lemma generation_loop_answered items imgs rest index n acc :
  Forall2 (answered cw body_of path_of) items imgs →
  (generation_loop cw body_of path_of (items ++ rest) index n acc).2
  = (generation_loop cw body_of path_of rest (index + length items) n (acc ++ imgs)).2
  ∧ canvas_invocations (generation_loop cw body_of path_of (items ++ rest) index n acc).1
    = ((λ x, (image_generation_model_id, body_of x)) <$> items)
      ++ canvas_invocations (generation_loop cw body_of path_of rest (index + length items) n (acc ++ imgs)).1
  ∧ saved_paths (generation_loop cw body_of path_of (items ++ rest) index n acc).1
    = (path_of <$> items)
      ++ saved_paths (generation_loop cw body_of path_of rest (index + length items) n (acc ++ imgs)).1
  ∧ plots (generation_loop cw body_of path_of (items ++ rest) index n acc).1
    = plots (generation_loop cw body_of path_of rest (index + length items) n (acc ++ imgs)).1.
Proof.
  intros H. revert index acc.
  induction H as [|x img items imgs Hx _ IH]; intros index acc.
  - cbn [app length]. by rewrite Nat.add_0_r, app_nil_r.
  - cbn [app generation_loop length].
    destruct (generate_one_answered index n x img Hx) as (Hr & Hi & Hs & Hp).
    rewrite cbind_snd, cbind_fst, Hr.
    rewrite canvas_invocations_app, saved_paths_app, plots_app, Hi, Hs, Hp.
    destruct (IH (S index) (acc ++ [img])) as (IH1 & IH2 & IH3 & IH4).
    replace (index + S (length items))%nat with (S index + length items)%nat
      by lia.
    replace (acc ++ img :: imgs) with ((acc ++ [img]) ++ imgs)
      by by rewrite <- app_assoc.
    rewrite IH1, IH2, IH3, IH4, !fmap_cons. done.
Qed.

(** X17: when every value is answered, the cell makes one request per
    value, in order, saves one file per value under its path, and plots one
    image per value, the first of each answer, with the values as
    labels. *)
Theorem generation_cell_one_image_per_value items imgs :
  Forall2 (answered cw body_of path_of) items imgs →
  (generation_cell cw text body_of path_of title_prefix items).2
  = plot_images_for_comparison cw imgs items text true title_prefix
  ∧ canvas_invocations (generation_cell cw text body_of path_of title_prefix items).1
    = (λ x, (image_generation_model_id, body_of x)) <$> items
  ∧ saved_paths (generation_cell cw text body_of path_of title_prefix items).1 = path_of <$> items
  ∧ plots (generation_cell cw text body_of path_of title_prefix items).1 = [(imgs, items)]
  ∧ length imgs = length items.
Proof.
  intros H. unfold generation_cell.
  destruct (generation_loop_answered items imgs [] 0 (length items) [] H)
    as (Hr & Hi & Hs & Hp).
  rewrite app_nil_r in *. cbn [generation_loop app fst snd] in *.
  rewrite cbind_snd, cbind_fst, Hr. cbn [fst snd].
  rewrite canvas_invocations_app, saved_paths_app, plots_app, Hi, Hs, Hp.
  cbn. rewrite !app_nil_r. repeat split; try done.
  symmetry. by eapply Forall2_length.
Qed.

(** X18: the loop stops at the first value whose call raises or whose
    answer has no image.  The cell ends with that exception: the values
    before it were requested and saved, the value itself was requested but
    nothing was saved for it, the values after it are never requested, and
    nothing is plotted. *)
Theorem generation_cell_stops_at_first_failure items imgs x e rest :
  Forall2 (answered cw body_of path_of) items imgs →
  unanswered cw body_of x e →
  (generation_cell cw text body_of path_of title_prefix (items ++ x :: rest)).2 = Raise e
  ∧ canvas_invocations (generation_cell cw text body_of path_of title_prefix (items ++ x :: rest)).1
    = (λ x, (image_generation_model_id, body_of x)) <$> (items ++ [x])
  ∧ saved_paths (generation_cell cw text body_of path_of title_prefix (items ++ x :: rest)).1 = path_of <$> items
  ∧ plots (generation_cell cw text body_of path_of title_prefix (items ++ x :: rest)).1 = [].
Proof.
  intros H Hx. unfold generation_cell.
  destruct (generation_loop_answered items imgs (x :: rest) 0
              (length (items ++ x :: rest)) [] H) as (Hr & Hi & Hs & Hp).
  cbn [generation_loop app] in *.
  destruct (generate_one_unanswered (0 + length items)
              (length (items ++ x :: rest)) x e Hx) as (Hr' & Hi' & Hs' & Hp').
  rewrite cbind_snd, Hr' in Hr.
  rewrite cbind_fst, Hr', app_nil_r, Hi' in Hi.
  rewrite cbind_fst, Hr', app_nil_r, Hs', app_nil_r in Hs.
  rewrite cbind_fst, Hr', app_nil_r, Hp' in Hp.
  rewrite cbind_snd, cbind_fst, Hr, app_nil_r, Hi, Hs, Hp, fmap_app. done.
Qed.

Lemma generate_one_undecodable index n x e :
  undecodable cw body_of path_of x e →
  (generate_one cw body_of path_of index n x).2 = Raise e
  ∧ canvas_invocations (generate_one cw body_of path_of index n x).1
    = [(image_generation_model_id, body_of x)]
  ∧ saved_paths (generate_one cw body_of path_of index n x).1 = [path_of x]
  ∧ plots (generate_one cw body_of path_of index n x).1 = [].
Proof.
  intros (b0 & bs & Hi & Hs & Hd). unfold generate_one.
  rewrite Hi. cbn [cbind first_image].
  change (getitem (b0 :: bs) 0) with (Ok b0 : Outcome string).
  cbn iota. rewrite Hs. cbn iota. cbn [default id]. rewrite Hd. done.
Qed.

(** X19: the first image of an answer is saved before the images are
    decoded.  When an image of the answer does not decode, the cell ends with
    that exception and plots nothing, but the file of that value is already
    written. *)
Theorem generation_cell_decode_failure_after_save items imgs x e rest :
  Forall2 (answered cw body_of path_of) items imgs →
  undecodable cw body_of path_of x e →
  (generation_cell cw text body_of path_of title_prefix (items ++ x :: rest)).2
  = Raise e
  ∧ saved_paths
      (generation_cell cw text body_of path_of title_prefix (items ++ x :: rest)).1
    = path_of <$> (items ++ [x])
  ∧ canvas_invocations
      (generation_cell cw text body_of path_of title_prefix (items ++ x :: rest)).1
    = (λ x, (image_generation_model_id, body_of x)) <$> (items ++ [x])
  ∧ plots
      (generation_cell cw text body_of path_of title_prefix (items ++ x :: rest)).1
    = [].
Proof.
  intros H Hx. unfold generation_cell.
  destruct (generation_loop_answered items imgs (x :: rest) 0
              (length (items ++ x :: rest)) [] H) as (Hr & Hi & Hs & Hp).
  cbn [generation_loop app] in *.
  destruct (generate_one_undecodable (0 + length items)
              (length (items ++ x :: rest)) x e Hx) as (Hr' & Hi' & Hs' & Hp').
  rewrite cbind_snd, Hr' in Hr.
  rewrite cbind_fst, Hr', app_nil_r, Hi' in Hi.
  rewrite cbind_fst, Hr', app_nil_r, Hs' in Hs.
  rewrite cbind_fst, Hr', app_nil_r, Hp' in Hp.
  rewrite cbind_snd, cbind_fst, Hr, app_nil_r, Hi, Hs, Hp, !fmap_app. done.
Qed.

End ImageGenerationFacts.

(** * The file names of the generated images *)

Section ImagePaths.
Import PyStr.

#[local] Arguments String.append !_ _ / : simpl nomatch.

Lemma str_app_inj_r (a b c : string) : a +:+ c = b +:+ c → a = b.
Proof.
  revert b. induction a as [|x a IH]; intros [|y b] H.
  - done.
  - apply (f_equal String.length) in H.
    rewrite !PyStrFacts.str_length_app in H. simpl in H. lia.
  - apply (f_equal String.length) in H.
    rewrite !PyStrFacts.str_length_app in H. simpl in H. lia.
  - simpl in H. injection H as -> H. f_equal. by apply IH.
Qed.

(** Two texts without a character that are followed by it agree up to
    it. *)
Lemma str_app_sep_inj (c : ascii) (a b r r' : string) :
  occurs c a = false → occurs c b = false →
  a +:+ String c r = b +:+ String c r' → a = b ∧ r = r'.
Proof.
  revert b. induction a as [|x a IH]; intros [|y b] Ha Hb H.
  - by injection H as ->.
  - simpl in H, Hb. injection H as <- _.
    by rewrite Ascii.eqb_refl in Hb.
  - simpl in H, Ha. injection H as -> _.
    by rewrite Ascii.eqb_refl in Ha.
  - simpl in H, Ha, Hb. injection H as -> H.
    apply orb_false_iff in Ha as [_ Ha]. apply orb_false_iff in Hb as [_ Hb].
    destruct (IH b Ha Hb H) as [-> ->]. done.
Qed.

Lemma pretty_N_char_not_x (k : N) : Ascii.eqb (pretty_N_char k) "x" = false.
Proof. unfold pretty_N_char. by repeat case_match. Qed.

Lemma pretty_N_go_no_x (n : N) (s : string) :
  occurs "x" s = false → occurs "x" (pretty_N_go n s) = false.
Proof.
  revert s. induction (N.lt_wf_0 n) as [n _ IH]; intros s Hs.
  assert (n = 0 ∨ 0 < n)%N as [->|Hn] by lia.
  - by rewrite pretty_N_go_0.
  - rewrite pretty_N_go_step by done. apply IH.
    + by apply N.div_lt.
    + cbn [occurs]. by rewrite pretty_N_char_not_x, Hs.
Qed.

(** A printed integer holds digits and a sign, never an [x]. *)
Lemma pretty_Z_no_x (z : Z) : occurs "x" (pretty z) = false.
Proof.
  assert (HN : ∀ n : N, occurs "x" (pretty n) = false).
  { intros n. unfold pretty, pretty_N. case_decide; [done|].
    by apply pretty_N_go_no_x. }
  destruct z as [|p|p]; [done|apply HN|].
  unfold pretty, pretty_Z. cbn [String.append occurs].
  change (occurs "x" (pretty (N.pos p)) = false). apply HN.
Qed.

Lemma seed_path_inj (seed1 seed2 : Z) :
  seed_path seed1 = seed_path seed2 → seed1 = seed2.
Proof.
  unfold seed_path. intros H.
  do 2 apply (inj (String.append _)) in H.
  apply str_app_inj_r in H. by apply (inj pretty).
Qed.

(** X20: the seed cell saves different seeds under different paths: the
    image of one seed never overwrites the image of another. *)
Theorem seed_path_distinct (seed1 seed2 : Z) :
  seed1 ≠ seed2 → seed_path seed1 ≠ seed_path seed2.
Proof. intros Hne H. by apply Hne, seed_path_inj. Qed.

Lemma ratio_path_inj (ratio1 ratio2 : Z * Z) :
  ratio_path ratio1 = ratio_path ratio2 → ratio1 = ratio2.
Proof.
  destruct ratio1 as [w1 h1], ratio2 as [w2 h2]. unfold ratio_path. cbn [fst snd].
  intros H. do 2 apply (inj (String.append _)) in H.
  change ("x" +:+ pretty h1 +:+ ".png") with (String "x" (pretty h1 +:+ ".png")) in H.
  change ("x" +:+ pretty h2 +:+ ".png") with (String "x" (pretty h2 +:+ ".png")) in H.
  apply str_app_sep_inj in H as [Hw Hh]; [|apply pretty_Z_no_x..].
  apply str_app_inj_r in Hh.
  apply (inj pretty) in Hw, Hh. by subst.
Qed.

(** X21: the resolution cell saves different resolutions under different
    paths: neither the width nor the height can be mistaken for part of the
    other. *)
Theorem ratio_path_distinct (ratio1 ratio2 : Z * Z) :
  ratio1 ≠ ratio2 → ratio_path ratio1 ≠ ratio_path ratio2.
Proof. intros Hne H. by apply Hne, ratio_path_inj. Qed.

End ImagePaths.

(** * The further statements at sample inputs *)

Lemma failed_download_is_isolated_witness :
  outcome (pdf_results sample_world sample_urls [2; 0; 1]%nat)
  = Some (Ok [ ("../downloads/pdfs/AMZN-Q3-2023-Earnings-Release.pdf",
                [ "page 1 of ../downloads/pdfs/AMZN-Q3-2023-Earnings-Release.pdf";
                  "page 2 of ../downloads/pdfs/AMZN-Q3-2023-Earnings-Release.pdf" ]);
               ("../downloads/pdfs/AMZN-Q4-2023-Earnings-Release.pdf",
                [ "page 1 of ../downloads/pdfs/AMZN-Q4-2023-Earnings-Release.pdf";
                  "page 2 of ../downloads/pdfs/AMZN-Q4-2023-Earnings-Release.pdf" ]) ])
  ∧ (download_pdf sample_world "https://example.com/reports/missing.pdf" folder).2
    = Ok None
  ∧ printed (download_pdf sample_world
               "https://example.com/reports/missing.pdf" folder).1
    = ["Failed to download PDF from https://example.com/reports/missing.pdf: 404 Client Error: Not Found for url"].
Proof.
  destruct (failed_download_is_isolated sample_world sample_urls [2; 0; 1]%nat
              [ Some [ "page 1 of ../downloads/pdfs/AMZN-Q3-2023-Earnings-Release.pdf";
                       "page 2 of ../downloads/pdfs/AMZN-Q3-2023-Earnings-Release.pdf" ];
                None;
                Some [ "page 1 of ../downloads/pdfs/AMZN-Q4-2023-Earnings-Release.pdf";
                       "page 2 of ../downloads/pdfs/AMZN-Q4-2023-Earnings-Release.pdf" ] ])
    as [Hdocs Hfailed].
  - apply (Permutation_cons_append [0; 1]%nat 2%nat).
  - repeat constructor.
    + exists "%PDF-1.7". repeat split.
    + exists "404 Client Error: Not Found for url". left. reflexivity.
    + exists "%PDF-1.7". repeat split.
  - split; [exact Hdocs|].
    apply (Hfailed "https://example.com/reports/missing.pdf"
                   "404 Client Error: Not Found for url").
    + right. left.
    + left. reflexivity.
Defined.

(** C9, counterexample: not every failed download is isolated.  A
    download that fails with an exception that is no [RequestException]
    aborts the fetch of the other URLs: the file name of a URL that ends with
    a slash is the folder itself, [open] raises [IsADirectoryError], and the
    document of the other URL, fetched when it is alone, is lost with the
    cell. *)
Lemma failed_download_is_isolated_counterexample :
  (download_pdf sample_world_io "https://example.com/reports/" folder).2
  = Raise (OtherError "IsADirectoryError" "[Errno 21] Is a directory")
  ∧ outcome (pdf_results sample_world_io
               ["https://example.com/reports/AMZN-Q3-2023-Earnings-Release.pdf"]
               [0]%nat)
    = Some (Ok [ ("../downloads/pdfs/AMZN-Q3-2023-Earnings-Release.pdf",
                  [ "page 1 of ../downloads/pdfs/AMZN-Q3-2023-Earnings-Release.pdf";
                    "page 2 of ../downloads/pdfs/AMZN-Q3-2023-Earnings-Release.pdf" ]) ])
  ∧ outcome (pdf_results sample_world_io
               [ "https://example.com/reports/AMZN-Q3-2023-Earnings-Release.pdf";
                 "https://example.com/reports/" ] [0; 1]%nat)
    = Some (Raise (OtherError "IsADirectoryError" "[Errno 21] Is a directory")).
Proof. vm_compute. repeat split. Qed.

Lemma pdf_to_base64_pngs_page_order_witness :
  pdf_to_base64_pngs sample_world "../downloads/pdfs/AMZN-Q3-2023-Earnings-Release.pdf"
  = ([EvOpenPdf "../downloads/pdfs/AMZN-Q3-2023-Earnings-Release.pdf"],
     Ok [ "page 1 of ../downloads/pdfs/AMZN-Q3-2023-Earnings-Release.pdf";
          "page 2 of ../downloads/pdfs/AMZN-Q3-2023-Earnings-Release.pdf" ]).
Proof.
  apply (pdf_to_base64_pngs_page_order sample_world
           "../downloads/pdfs/AMZN-Q3-2023-Earnings-Release.pdf"
           [ "page 1 of ../downloads/pdfs/AMZN-Q3-2023-Earnings-Release.pdf";
             "page 2 of ../downloads/pdfs/AMZN-Q3-2023-Earnings-Release.pdf" ]).
  reflexivity.
Defined.

Lemma pdf_to_base64_pngs_first_failure_witness :
  pdf_to_base64_pngs sample_world_io "../downloads/pdfs/damaged.pdf"
  = ([EvOpenPdf "../downloads/pdfs/damaged.pdf"],
     Raise (OtherError "RuntimeError" "cannot render page")).
Proof.
  apply (pdf_to_base64_pngs_first_failure sample_world_io
           "../downloads/pdfs/damaged.pdf" ["page 1"]
           (OtherError "RuntimeError" "cannot render page") [Ok "page 3"]).
  reflexivity.
Defined.

Lemma download_pdf_keeps_last_component_witness :
  download_pdf sample_world
    "https://example.com/reports/AMZN-Q3-2023-Earnings-Release.pdf" folder
  = ([EvGet "https://example.com/reports/AMZN-Q3-2023-Earnings-Release.pdf";
      EvWrite "../downloads/pdfs/AMZN-Q3-2023-Earnings-Release.pdf"],
     Ok (Some "../downloads/pdfs/AMZN-Q3-2023-Earnings-Release.pdf")).
Proof.
  apply (download_pdf_keeps_last_component sample_world
           "https://example.com/reports" "AMZN-Q3-2023-Earnings-Release.pdf"
           folder "%PDF-1.7");
    (reflexivity || discriminate).
Defined.

Lemma same_last_component_same_file_witness :
  (download_pdf sample_world
     "https://example.com/2023/q3/AMZN-Q3-Earnings-Release.pdf" folder).2
  = (download_pdf sample_world
       "https://example.com/2024/q3/AMZN-Q3-Earnings-Release.pdf" folder).2
  ∧ EvWrite "../downloads/pdfs/AMZN-Q3-Earnings-Release.pdf"
      ∈ (download_pdf sample_world
           "https://example.com/2023/q3/AMZN-Q3-Earnings-Release.pdf" folder).1
  ∧ EvWrite "../downloads/pdfs/AMZN-Q3-Earnings-Release.pdf"
      ∈ (download_pdf sample_world
           "https://example.com/2024/q3/AMZN-Q3-Earnings-Release.pdf" folder).1.
Proof.
  apply (same_last_component_same_file sample_world
           "https://example.com/2023/q3" "https://example.com/2024/q3"
           "AMZN-Q3-Earnings-Release.pdf" "%PDF-1.7" "%PDF-1.7");
    reflexivity.
Defined.

Lemma other_exception_aborts_fetch_cell_witness :
  (download_pdf sample_world_io "https://example.com/reports/" folder).2
  = Raise (OtherError "IsADirectoryError" "[Errno 21] Is a directory")
  ∧ ∃ e', outcome (pdf_results sample_world_io
                     [ "https://example.com/reports/AMZN-Q3-2023-Earnings-Release.pdf";
                       "https://example.com/reports/" ] [1; 0]%nat)
          = Some (Raise e').
Proof.
  apply (other_exception_aborts_fetch_cell sample_world_io
           [ "https://example.com/reports/AMZN-Q3-2023-Earnings-Release.pdf";
             "https://example.com/reports/" ] [1; 0]%nat
           "https://example.com/reports/"
           (OtherError "IsADirectoryError" "[Errno 21] Is a directory")).
  - apply perm_swap.
  - right. left.
  - reflexivity.
  - right. exists "%PDF-1.7". split; reflexivity.
Defined.

Lemma all_downloads_fail_empty_context_witness :
  (∃ log, pdf_results sample_world
            [ "https://example.com/2023/missing.pdf";
              "https://example.com/2024/missing.pdf" ] [1; 0]%nat
          = Some (log, Ok [])
          ∧ length (printed log) = 2%nat)
  ∧ extracted_info sample_world [] sample_prompt []
    = Some ([EvPrint EmptyString], Ok EmptyString).
Proof.
  apply (all_downloads_fail_empty_context sample_world
           [ "https://example.com/2023/missing.pdf";
             "https://example.com/2024/missing.pdf" ] [1; 0]%nat sample_prompt).
  - apply perm_swap.
  - intros url Hin. exists "404 Client Error: Not Found for url".
    apply list_elem_of_In in Hin. simpl in Hin.
    destruct Hin as [<-|[<-|[]]]; reflexivity.
Defined.

Lemma pdf_results_keep_input_order_witness :
  [ "../downloads/pdfs/AMZN-Q3-2023-Earnings-Release.pdf";
    "../downloads/pdfs/AMZN-Q4-2023-Earnings-Release.pdf" ]
  `sublist_of` (λ url, downloaded_path url folder) <$> sample_urls.
Proof.
  apply (pdf_results_keep_input_order sample_world sample_urls [2; 0; 1]%nat
           [ ("../downloads/pdfs/AMZN-Q3-2023-Earnings-Release.pdf",
              [ "page 1 of ../downloads/pdfs/AMZN-Q3-2023-Earnings-Release.pdf";
                "page 2 of ../downloads/pdfs/AMZN-Q3-2023-Earnings-Release.pdf" ]);
             ("../downloads/pdfs/AMZN-Q4-2023-Earnings-Release.pdf",
              [ "page 1 of ../downloads/pdfs/AMZN-Q4-2023-Earnings-Release.pdf";
                "page 2 of ../downloads/pdfs/AMZN-Q4-2023-Earnings-Release.pdf" ]) ]).
  - apply (Permutation_cons_append [0; 1]%nat 2%nat).
  - vm_compute. reflexivity.
Defined.

Lemma label_is_second_token_of_file_name_witness :
  extracted_info_loop
    [("Net sales grew.", "../down-loads/pdfs/AMZN-Q3-2023-Earnings-Release.pdf")]
    EmptyString
  = Ok (info_block "Q3" "Net sales grew.").
Proof.
  apply (label_is_second_token_of_file_name "../down-loads/pdfs" "AMZN" "Q3"
           "-2023-Earnings-Release.pdf" "Net sales grew." EmptyString);
    try reflexivity.
  right. reflexivity.
Defined.

Lemma file_name_without_hyphen_aborts_witness :
  ∃ log,
    extracted_info sample_world
      [ ("../downloads/pdfs/AMZN-Q3-2023-Earnings-Release.pdf", ["page 1 of Q3"]);
        ("../downloads/pdfs/report.pdf", ["page 1 of the report"]) ]
      sample_prompt [1; 0]%nat
    = Some (log, Raise (IndexError "list index out of range"))
    ∧ length (invocations log) = 2%nat
    ∧ printed log = [].
Proof.
  apply (file_name_without_hyphen_aborts sample_world
           [ ("../downloads/pdfs/AMZN-Q3-2023-Earnings-Release.pdf", ["page 1 of Q3"]);
             ("../downloads/pdfs/report.pdf", ["page 1 of the report"]) ]
           sample_prompt [1; 0]%nat
           ["Summary of page 1 of Q3"; "Summary of page 1 of the report"]
           ("../downloads/pdfs/report.pdf", ["page 1 of the report"])).
  - apply perm_swap.
  - repeat constructor.
  - right. left.
  - reflexivity.
Defined.

Lemma blocks_can_be_forged_witness :
  extracted_info_loop
    [("Sales fell.</info>" +:+ nl +:+ "<info quarter=" +:+ dquote +:+ "Q4"
      +:+ dquote +:+ ">Sales doubled.",
      "../downloads/pdfs/AMZN-Q3-2023-Earnings-Release.pdf")] EmptyString
  = extracted_info_loop
      [("Sales fell.", "../downloads/pdfs/AMZN-Q3-2023-Earnings-Release.pdf");
       ("Sales doubled.", "../downloads/pdfs/AMZN-Q4-2023-Earnings-Release.pdf")]
      EmptyString.
Proof.
  apply (blocks_can_be_forged "Sales fell." "Sales doubled."
           "../downloads/pdfs/AMZN-Q3-2023-Earnings-Release.pdf"
           "../downloads/pdfs/AMZN-Q4-2023-Earnings-Release.pdf"
           "Q3" "Q4" EmptyString); reflexivity.
Defined.

Lemma planner_catches_model_failure_witness :
  (generate_prompt_for_lite sample_world (PyStr QUESTION)).2
  = Ok (Some "Extract the net sales of the quarter.")
  ∧ invocations (generate_prompt_for_lite sample_world (PyStr QUESTION)).1
    = [(nova_pro, lite_prompt_request QUESTION)]
  ∧ ∀ e, invoke_model sample_world nova_pro (lite_prompt_request QUESTION)
         = Raise e →
      printed (generate_prompt_for_lite sample_world (PyStr QUESTION)).1
      = ["Error generating prompt: " +:+ exn_str e].
Proof.
  apply (planner_catches_model_failure sample_world QUESTION). discriminate.
Defined.

Lemma planner_cell_continues_with_prompt_witness :
  (lite_prompt_cell sample_world (PyStr QUESTION)).2
  = Ok (Continue "Extract the net sales of the quarter.")
  ∧ ∀ p, (lite_prompt_cell sample_world (PyStr QUESTION)).2 = Ok (Continue p) →
         p ≠ EmptyString.
Proof.
  apply (planner_cell_continues_with_prompt sample_world QUESTION). discriminate.
Defined.

Lemma extract_code_drops_text_after_end_witness :
  extract_code ("Chart: <python>plt.show()</python> Net sales grew in Q4.")
  = extract_code ("Chart: <python>plt.show()</python>").
Proof.
  apply (extract_code_drops_text_after_end "Chart: " "plt.show()"
           " Net sales grew in Q4."); reflexivity.
Defined.

Lemma extract_code_reversed_delimiters_witness :
  extract_code ("Done</python> and <python>plt.show()")
  = (Some EmptyString, "Done</python> and")
  ∧ executed (run_extracted_code sample_world
                ("Done</python> and <python>plt.show()")).1 = [].
Proof.
  apply (extract_code_reversed_delimiters sample_world "Done" " and " "plt.show()");
    reflexivity.
Defined.

Lemma extract_code_parts_are_trimmed_witness :
  PyStr.strip (extract_code sample_response).2 = (extract_code sample_response).2
  ∧ PyStr.strip ("n>" +:+ nl +:+ "plt.show()") = "n>" +:+ nl +:+ "plt.show()".
Proof.
  destruct (extract_code_parts_are_trimmed sample_response) as [Htext Hcode].
  split; [exact Htext|]. apply Hcode. reflexivity.
Defined.


Lemma generation_cell_one_image_per_value_witness :
  (seed_cell (sample_canvas_world Z) seed_values).2 = Ok tt
  ∧ canvas_invocations (seed_cell (sample_canvas_world Z) seed_values).1
    = (λ x, (image_generation_model_id, seed_body x)) <$> seed_values
  ∧ saved_paths (seed_cell (sample_canvas_world Z) seed_values).1
    = [ "output/01-text-to-image_seed-1.png";
        "output/01-text-to-image_seed-12.png";
        "output/01-text-to-image_seed-20.png" ]
  ∧ plots (seed_cell (sample_canvas_world Z) seed_values).1
    = [([ "image for seed 1 at 1024x1024"; "image for seed 12 at 1024x1024";
          "image for seed 20 at 1024x1024" ], seed_values)]
  ∧ length [ "image for seed 1 at 1024x1024"; "image for seed 12 at 1024x1024";
             "image for seed 20 at 1024x1024" ] = length seed_values.
Proof.
  apply (generation_cell_one_image_per_value (sample_canvas_world Z) seed_text
           seed_body seed_path "Seed" seed_values
           [ "image for seed 1 at 1024x1024"; "image for seed 12 at 1024x1024";
             "image for seed 20 at 1024x1024" ]).
  repeat constructor; eexists _, [], []; repeat split.
Defined.

Lemma generation_cell_stops_at_first_failure_witness :
  (seed_cell (sample_canvas_world Z) [1; 13; 20]).2
  = Raise (OtherError "ThrottlingException" "Too many requests")
  ∧ canvas_invocations (seed_cell (sample_canvas_world Z) [1; 13; 20]).1
    = (λ x, (image_generation_model_id, seed_body x)) <$> [1; 13]
  ∧ saved_paths (seed_cell (sample_canvas_world Z) [1; 13; 20]).1
    = seed_path <$> [1]
  ∧ plots (seed_cell (sample_canvas_world Z) [1; 13; 20]).1 = [].
Proof.
  apply (generation_cell_stops_at_first_failure (sample_canvas_world Z) seed_text
           seed_body seed_path "Seed" [1] ["image for seed 1 at 1024x1024"] 13
           (OtherError "ThrottlingException" "Too many requests") [20]).
  - repeat constructor. eexists _, [], []. repeat split.
  - left. reflexivity.
Defined.

Lemma generation_cell_decode_failure_after_save_witness :
  (seed_cell sample_canvas_world_corrupt [1; 14; 20]).2
  = Raise (OtherError "UnidentifiedImageError" "cannot identify image file")
  ∧ saved_paths (seed_cell sample_canvas_world_corrupt [1; 14; 20]).1
    = seed_path <$> [1; 14]
  ∧ canvas_invocations (seed_cell sample_canvas_world_corrupt [1; 14; 20]).1
    = (λ x, (image_generation_model_id, seed_body x)) <$> [1; 14]
  ∧ plots (seed_cell sample_canvas_world_corrupt [1; 14; 20]).1 = [].
Proof.
  apply (generation_cell_decode_failure_after_save sample_canvas_world_corrupt
           seed_text seed_body seed_path "Seed" [1] ["image for seed 1"] 14
           (OtherError "UnidentifiedImageError" "cannot identify image file") [20]).
  - repeat constructor. eexists _, [], []. repeat split.
  - eexists _, _. repeat split.
Defined.

Lemma seed_path_distinct_witness : seed_path 1 ≠ seed_path 12.
Proof. apply (seed_path_distinct 1 12). discriminate. Defined.

Lemma ratio_path_distinct_witness :
  ratio_path (1024, 1024) ≠ ratio_path (1280, 720).
Proof. apply (ratio_path_distinct (1024, 1024) (1280, 720)). discriminate. Defined.

(** Runs of the image cells in the sample world. *)

Example seed_cell_run :
  saved_paths (seed_cell (sample_canvas_world Z) seed_values).1
  = [ "output/01-text-to-image_seed-1.png";
      "output/01-text-to-image_seed-12.png";
      "output/01-text-to-image_seed-20.png" ].
Proof. vm_compute. reflexivity. Qed.

Example ratio_cell_run :
  saved_paths (ratio_cell (sample_canvas_world (Z * Z)) ratio_values).1
  = [ "output/01-text-to-image_resolution-1024x1024.png";
      "output/01-text-to-image_resolution-1280x720.png";
      "output/01-text-to-image_resolution-672x1024.png" ].
Proof. vm_compute. reflexivity. Qed.

Example seed_cell_progress :
  (seed_cell (sample_canvas_world Z) [1; 13; 20]).1
  = [ CPrint "Generating image 1 of 3...";
      CInvoke image_generation_model_id (seed_body 1);
      CSave "image for seed 1 at 1024x1024" "output/01-text-to-image_seed-1.png";
      CPrint "Saved to output/01-text-to-image_seed-1.png";
      CPrint "Generating image 2 of 3...";
      CInvoke image_generation_model_id (seed_body 13) ].
Proof. vm_compute. reflexivity. Qed.
